(** * xtd::basic_string_view: a shallow embedding and its checked properties

    The development follows the header that implements the string_view
    proposal N3609 on top of xtd::optional.  A view is a pointer-length pair;
    pointers are modelled as a position inside the array object they point
    into, so that reads outside the viewed window (but inside the array) and
    reads outside the array (undefined behaviour) are both visible.

    Integer types are those of an LP64 platform: [size_type] is a 64-bit
    unsigned integer and [std::streamsize] a 64-bit signed one. *)

From Stdlib Require Import ZArith List Ascii String Bool Lia.
Import ListNotations.

Local Open Scope Z_scope.

(** ** Machine integers *)

Module size_type.

Definition bits : Z := 64.
Definition modulus : Z := 2 ^ bits.

(** [std::numeric_limits<size_type>::max()] *)
Definition max : Z := modulus - 1.

(** Reduction of a mathematical integer to its value as a [size_type];
    this is also the conversion of a signed integer to [size_type]. *)
Definition wrap (x : Z) : Z := x mod modulus.

End size_type.

(** [PTRDIFF_MAX]: no array object is larger than this. *)
Definition ptrdiff_max : Z := 2 ^ 63 - 1.

(** ** Outcomes of a call

    A call returns, throws, trips a debug assertion, or has undefined
    behaviour (here: a read through a null pointer or outside the array). *)

Inductive exception : Type :=
| out_of_range (what : string).

Inductive outcome (A : Type) : Type :=
| Ok (a : A)
| Throw (e : exception)
| AssertFail (msg : string)
| Undefined.

Arguments Ok {A} a.
Arguments Throw {A} e.
Arguments AssertFail {A} msg.
Arguments Undefined {A}.

Definition bind {A B : Type} (c : outcome A) (k : A -> outcome B) : outcome B :=
  match c with
  | Ok a => k a
  | Throw e => Throw e
  | AssertFail msg => AssertFail msg
  | Undefined => Undefined
  end.

Notation "x <- c ;; k" := (bind c (fun x => k))
  (at level 61, c at next level, right associativity).
Notation "c ;;; k" := (bind c (fun _ => k))
  (at level 61, right associativity).

Definition is_assert_fail {A : Type} (c : outcome A) : bool :=
  match c with AssertFail _ => true | _ => false end.

(** ** Character traits

    The comparison strategy of the view.  [Traits::compare], [Traits::find]
    are derived below from [eq] and [lt] the way the character traits
    requirements define them. *)

Class Traits (CharT : Type) : Type := {
  Traits_eq : CharT -> CharT -> bool;
  Traits_lt : CharT -> CharT -> bool;
  Traits_lt_irrefl : forall a, Traits_lt a a = false;
  Traits_eq_lt : forall a b,
    Traits_eq a b = true <-> (Traits_lt a b = false /\ Traits_lt b a = false)
}.

(** [std::char_traits<char>]: equality of characters, order of their codes. *)
Definition char_eq (a b : ascii) : bool := Ascii.eqb a b.
Definition char_lt (a b : ascii) : bool := (N_of_ascii a <? N_of_ascii b)%N.

Section StringView.

Context {CharT : Type} {T : Traits CharT}.

(** [NDEBUG]: when set, [assert] expands to nothing. *)
Variable NDEBUG : bool.

Definition assert (cond : bool) (msg : string) : outcome bool :=
  if NDEBUG then Ok true else if cond then Ok true else AssertFail msg.

(** ** Pointers *)

(** A non-null [const CharT*]: the array object it points into and the
    position inside it (one past the end and beyond are representable, a read
    there is undefined). *)
Record address : Type := { object : list CharT; position : Z }.

(** [const CharT*]; [None] is [nullptr]. *)
Definition const_pointer : Type := option address.

Definition is_null (p : const_pointer) : bool :=
  match p with None => true | Some _ => false end.

(** [p + k].  Arithmetic on [nullptr] is kept null. *)
Definition ptr_add (p : const_pointer) (k : Z) : const_pointer :=
  match p with
  | None => None
  | Some a => Some {| object := object a; position := position a + k |}
  end.

(** [p - q], for pointers into the same array. *)
Definition ptr_diff (p q : const_pointer) : Z :=
  match p, q with
  | Some a, Some b => position a - position b
  | _, _ => 0
  end.

(** [p == q], for pointers into the same array (or both null). *)
Definition ptr_eqb (p q : const_pointer) : bool :=
  match p, q with
  | Some a, Some b => position a =? position b
  | None, None => true
  | _, _ => false
  end.

(** [*p] *)
Definition load (p : const_pointer) : outcome CharT :=
  match p with
  | None => Undefined
  | Some a =>
      if position a <? 0 then Undefined
      else match nth_error (object a) (Z.to_nat (position a)) with
           | Some c => Ok c
           | None => Undefined
           end
  end.

(** [Traits::compare(s1, s2, n)]: the sign of the first difference among the
    first [n] characters, as -1, 0 or 1. *)
Fixpoint Traits_compare (s1 s2 : const_pointer) (n : nat) : outcome Z :=
  match n with
  | O => Ok 0
  | S n' =>
      a <- load s1 ;;
      b <- load s2 ;;
      if Traits_lt a b then Ok (-1)
      else if Traits_lt b a then Ok 1
      else Traits_compare (ptr_add s1 1) (ptr_add s2 1) n'
  end.

(** [Traits::find(p, n, c)]: pointer to the first of the [n] characters at
    [p] that equals [c], or [nullptr]. *)
Fixpoint Traits_find (p : const_pointer) (n : nat) (c : CharT) : outcome const_pointer :=
  match n with
  | O => Ok None
  | S n' =>
      x <- load p ;;
      if Traits_eq x c then Ok p else Traits_find (ptr_add p 1) n' c
  end.

(** ** The view *)

Record basic_string_view : Type := { _data : const_pointer; _len : Z }.

(** [basic_string_view()] *)
Definition empty_view : basic_string_view := {| _data := None; _len := 0 |}.

(** [basic_string_view(const CharT* chars, size_type len)] *)
Definition view_of (chars : const_pointer) (len : Z) : basic_string_view :=
  {| _data := chars; _len := if is_null chars then 0 else len |}.

Definition size (v : basic_string_view) : Z := _len v.
Definition length (v : basic_string_view) : Z := size v.
Definition empty (v : basic_string_view) : bool := size v =? 0.
Definition data (v : basic_string_view) : const_pointer := _data v.

(** *** Iterators *)

Definition iterator : Type := const_pointer.

(** [std::reverse_iterator<iterator>]: dereferencing reads the element before
    [base], incrementing moves [base] back. *)
Record reverse_iterator : Type := { base : iterator }.

Definition cbegin (v : basic_string_view) : iterator := data v.
Definition cend (v : basic_string_view) : iterator := ptr_add (data v) (size v).
Definition begin (v : basic_string_view) : iterator := cbegin v.
Definition end_ (v : basic_string_view) : iterator := cend v.
Definition crbegin (v : basic_string_view) : reverse_iterator := {| base := cend v |}.
Definition crend (v : basic_string_view) : reverse_iterator := {| base := cbegin v |}.
Definition rbegin (v : basic_string_view) : reverse_iterator := crbegin v.
Definition rend (v : basic_string_view) : reverse_iterator := crend v.

(** What the algorithms need of an iterator.  A range [[first, last)] is
    passed to them as [first] and the distance [last - first], which the loop
    test [first != last] counts down. *)
Class Iterator (It : Type) : Type := {
  deref : It -> outcome CharT;
  next : It -> It
}.

#[local] Instance pointer_iterator : Iterator iterator := {
  deref p := load p;
  next p := ptr_add p 1
}.

#[local] Instance reverse_pointer_iterator : Iterator reverse_iterator := {
  deref r := load (ptr_add (base r) (-1));
  next r := {| base := ptr_add (base r) (-1) |}
}.

(** [std::distance(begin(), end())] *)
Definition distance (v : basic_string_view) : nat := Z.to_nat (size v).

(** *** Private helpers *)

Definition offset (v : basic_string_view) (pos : Z) : const_pointer :=
  ptr_add (_data v) (if pos >=? size v then size v else pos).

Definition tail (v : basic_string_view) (pos : Z) (n : option Z) : Z :=
  match n with
  | None => size_type.wrap (size v - pos)
  | Some n' =>
      if size_type.wrap (n' + pos) >? size v
      then size_type.wrap (size v - pos)
      else n'
  end.

Definition assertNonNull (v : basic_string_view) : outcome bool :=
  assert (negb (is_null (_data v))) "xtd::basic_string_view points to NULL.".

Definition assertNonEmpty (v : basic_string_view) : outcome bool :=
  assert (_len v >? 0) "xtd::basic_string_view has length zero.".

Definition checkPosition (v : basic_string_view) (pos : Z) : outcome bool :=
  if pos >=? size v
  then Throw (out_of_range "xtd::basic_string_view pos out of range.")
  else Ok true.

Definition forwardIterOffset (v : basic_string_view) (it : iterator) : option Z :=
  if ptr_eqb it (end_ v) then None else Some (ptr_diff it (begin v)).

Definition reverseIterOffset (v : basic_string_view) (it : reverse_iterator) : option Z :=
  if ptr_eqb (base it) (base (rend v)) then None
  else Some (ptr_diff (base it) (begin v) - 1).

(** The loop [while(first++ != last)]: the test reads [first] before the
    increment, the body dereferences it after. *)
Fixpoint findNotOf {It : Type} `{Iterator It}
    (first : It) (n : nat) (s : basic_string_view) : outcome It :=
  match n with
  | O => Ok first
  | S n' =>
      let first' := next first in
      c <- deref first' ;;
      r <- Traits_find (data s) (distance s) c ;;
      if is_null r then Ok first' else findNotOf first' n' s
  end.

(** *** Element access *)

(** [operator[]] *)
Definition index (v : basic_string_view) (pos : Z) : outcome CharT :=
  assertNonNull v ;;; assertNonEmpty v ;;; load (ptr_add (_data v) pos).

Definition at_ (v : basic_string_view) (pos : Z) : outcome CharT :=
  assertNonNull v ;;; checkPosition v pos ;;; index v pos.

Definition front (v : basic_string_view) : outcome CharT := index v 0.
Definition back (v : basic_string_view) : outcome CharT :=
  index v (size_type.wrap (size v - 1)).

(** *** String operations *)

Definition substr (v : basic_string_view) (pos : Z) (n : option Z)
  : outcome basic_string_view :=
  checkPosition v pos ;;; Ok (view_of (offset v pos) (tail v pos n)).

Definition order_by_size (v x : basic_string_view) : Z :=
  if size v =? size x then 0 else if size v <? size x then -1 else 1.

Definition compare (v x : basic_string_view) : outcome Z :=
  let len := Z.min (size v) (size x) in
  if len <=? 0 then Ok (order_by_size v x)
  else
    cmp <- Traits_compare (data v) (data x) (Z.to_nat (_len v)) ;;
    Ok (if negb (cmp =? 0) then cmp else order_by_size v x).

(** [operator ==] on two views *)
Definition op_eq (a b : basic_string_view) : outcome bool :=
  if size a =? size b
  then c <- compare a b ;; Ok (c =? 0)
  else Ok false.


(** *** Standard algorithms used by the searches

    Each follows the loop of its reference implementation in <algorithm>. *)

(** [std::find_if(first, last, p)] *)
Fixpoint std_find_if {It : Type} `{Iterator It}
    (first : It) (n : nat) (p : CharT -> bool) : outcome It :=
  match n with
  | O => Ok first
  | S n' =>
      c <- deref first ;;
      if p c then Ok first else std_find_if (next first) n' p
  end.

(** [std::find_if_not(first, last, p)] *)
Fixpoint std_find_if_not {It : Type} `{Iterator It}
    (first : It) (n : nat) (p : CharT -> bool) : outcome It :=
  match n with
  | O => Ok first
  | S n' =>
      c <- deref first ;;
      if p c then std_find_if_not (next first) n' p else Ok first
  end.

(** The inner loop of [std::find_first_of]: is [*first] matched by some
    element of [[s_it, s_last)]? *)
Fixpoint matches_any {It : Type} `{Iterator It}
    (first : It) (s_it : iterator) (m : nat) (p : CharT -> CharT -> bool)
  : outcome bool :=
  match m with
  | O => Ok false
  | S m' =>
      x <- deref first ;;
      y <- deref s_it ;;
      if p x y then Ok true else matches_any first (next s_it) m' p
  end.

(** [std::find_first_of(first, last, s_first, s_last, p)] *)
Fixpoint std_find_first_of {It : Type} `{Iterator It}
    (first : It) (n : nat) (s_first : iterator) (m : nat)
    (p : CharT -> CharT -> bool) : outcome It :=
  match n with
  | O => Ok first
  | S n' =>
      hit <- matches_any first s_first m p ;;
      if hit then Ok first else std_find_first_of (next first) n' s_first m p
  end.

(** How the inner loop of [std::search] ends. *)
Inductive search_step : Type :=
| NeedleEnd     (* s_it == s_last: return first *)
| HaystackEnd   (* it == last: return last *)
| Mismatch.     (* !p( *it, *s_it ): break *)

Fixpoint search_inner (it : iterator) (n : nat) (s_it : iterator) (m : nat)
    (p : CharT -> CharT -> bool) {struct m} : outcome search_step :=
  match m with
  | O => Ok NeedleEnd
  | S m' =>
      match n with
      | O => Ok HaystackEnd
      | S n' =>
          x <- deref it ;;
          y <- deref s_it ;;
          if p x y then search_inner (next it) n' (next s_it) m' p
          else Ok Mismatch
      end
  end.

(** [std::search(first, last, s_first, s_last, p)] *)
Fixpoint std_search (first : iterator) (n : nat) (s_first : iterator) (m : nat)
    (p : CharT -> CharT -> bool) : outcome iterator :=
  r <- search_inner first n s_first m p ;;
  match r with
  | NeedleEnd => Ok first
  | HaystackEnd => Ok (ptr_add first (Z.of_nat n))
  | Mismatch =>
      match n with
      | O => Ok first
      | S n' => std_search (next first) n' s_first m p
      end
  end.

(** The loop of [std::find_end]: search again after every match, keep the
    last one.  [rounds] bounds the number of searches; one more than the
    length of the haystack is enough, each round consuming a character. *)
Fixpoint find_end_loop (rounds : nat) (first last : iterator)
    (s_first : iterator) (m : nat) (p : CharT -> CharT -> bool)
    (result : iterator) : outcome iterator :=
  match rounds with
  | O => Ok result
  | S rounds' =>
      new_result <- std_search first (Z.to_nat (ptr_diff last first)) s_first m p ;;
      if ptr_eqb new_result last then Ok result
      else find_end_loop rounds' (next new_result) last s_first m p new_result
  end.

(** [std::find_end(first, last, s_first, s_last, p)] *)
Definition std_find_end (first : iterator) (n : nat) (s_first : iterator) (m : nat)
    (p : CharT -> CharT -> bool) : outcome iterator :=
  let last := ptr_add first (Z.of_nat n) in
  match m with
  | O => Ok last
  | S _ => find_end_loop (S n) first last s_first m p last
  end.

(** *** Searching *)

Definition find (v s : basic_string_view) : outcome (option Z) :=
  assertNonNull v ;;;
  it <- std_search (begin v) (distance v) (begin s) (distance s) Traits_eq ;;
  Ok (forwardIterOffset v it).

Definition find_ch (v : basic_string_view) (ch : CharT) : outcome (option Z) :=
  assertNonNull v ;;;
  it <- std_find_if (begin v) (distance v) (fun x => Traits_eq x ch) ;;
  Ok (forwardIterOffset v it).

Definition rfind (v s : basic_string_view) : outcome (option Z) :=
  assertNonNull v ;;;
  it <- std_find_end (begin v) (distance v) (begin s) (distance s) Traits_eq ;;
  Ok (forwardIterOffset v it).

Definition rfind_ch (v : basic_string_view) (ch : CharT) : outcome (option Z) :=
  assertNonNull v ;;;
  it <- std_find_if (rbegin v) (distance v) (fun x => Traits_eq x ch) ;;
  Ok (reverseIterOffset v it).

Definition find_first_of (v s : basic_string_view) : outcome (option Z) :=
  assertNonNull v ;;;
  it <- std_find_first_of (begin v) (distance v) (begin s) (distance s) Traits_eq ;;
  Ok (forwardIterOffset v it).

Definition find_first_of_ch (v : basic_string_view) (ch : CharT) : outcome (option Z) :=
  find_ch v ch.

Definition find_last_of (v s : basic_string_view) : outcome (option Z) :=
  assertNonNull v ;;;
  it <- std_find_first_of (rbegin v) (distance v) (begin s) (distance s) Traits_eq ;;
  Ok (reverseIterOffset v it).

Definition find_last_of_ch (v : basic_string_view) (ch : CharT) : outcome (option Z) :=
  rfind_ch v ch.

Definition find_first_not_of (v s : basic_string_view) : outcome (option Z) :=
  assertNonNull v ;;;
  it <- findNotOf (begin v) (distance v) s ;;
  Ok (forwardIterOffset v it).

Definition find_first_not_of_ch (v : basic_string_view) (ch : CharT) : outcome (option Z) :=
  assertNonNull v ;;;
  it <- std_find_if_not (begin v) (distance v) (fun x => Traits_eq x ch) ;;
  Ok (forwardIterOffset v it).

Definition find_last_not_of (v s : basic_string_view) : outcome (option Z) :=
  it <- findNotOf (rbegin v) (distance v) s ;;
  Ok (reverseIterOffset v it).

Definition find_last_not_of_ch (v : basic_string_view) (ch : CharT) : outcome (option Z) :=
  assertNonNull v ;;;
  it <- std_find_if_not (rbegin v) (distance v) (fun x => Traits_eq ch x) ;;
  Ok (reverseIterOffset v it).

(** *** The inserter *)

(** The part of [std::basic_ostream] the inserter touches: field width
    (a signed [std::streamsize]), fill character, format flags, error state
    and the characters its buffer has accepted so far. *)
Record basic_ostream : Type := {
  os_width : Z;
  os_fill : CharT;
  os_flags : Z;
  os_rdstate : Z;
  os_rdbuf : list CharT
}.

(** [std::ios_base] constants (bit masks, with the values of libstdc++). *)
Definition ios_internal : Z := Z.shiftl 1 4.
Definition ios_left : Z := Z.shiftl 1 5.
Definition ios_right : Z := Z.shiftl 1 7.
Definition ios_adjustfield : Z := Z.lor ios_left (Z.lor ios_right ios_internal).
Definition ios_badbit : Z := Z.shiftl 1 0.
Definition ios_failbit : Z := Z.shiftl 1 2.

(** The sentry of a stream with no tied stream: it is ok when the stream is good. *)
Definition sentry (os : basic_ostream) : bool := os_rdstate os =? 0.

Definition setstate (os : basic_ostream) (bits : Z) : basic_ostream :=
  {| os_width := os_width os; os_fill := os_fill os; os_flags := os_flags os;
     os_rdstate := Z.lor (os_rdstate os) bits; os_rdbuf := os_rdbuf os |}.

(** [os.width(w)] *)
Definition set_width (os : basic_ostream) (w : Z) : basic_ostream :=
  {| os_width := w; os_fill := os_fill os; os_flags := os_flags os;
     os_rdstate := os_rdstate os; os_rdbuf := os_rdbuf os |}.

Definition put_chars (os : basic_ostream) (cs : list CharT) : basic_ostream :=
  {| os_width := os_width os; os_fill := os_fill os; os_flags := os_flags os;
     os_rdstate := os_rdstate os; os_rdbuf := os_rdbuf os ++ cs |}.

(** The [n] characters at [p]. *)
Fixpoint read_n (p : const_pointer) (n : nat) : outcome (list CharT) :=
  match n with
  | O => Ok []
  | S n' => c <- load p ;; cs <- read_n (ptr_add p 1) n' ;; Ok (c :: cs)
  end.

(** [os.rdbuf()->sputn(p, n)] on a buffer that accepts every character. *)
Definition sputn (os : basic_ostream) (p : const_pointer) (n : Z) : outcome basic_ostream :=
  cs <- read_n p (Z.to_nat n) ;; Ok (put_chars os cs).

(** [std::fill_n(std::ostreambuf_iterator<CharT>{os}, count, c)], [count]
    being a [size_type]. *)
Definition std_fill_n (os : basic_ostream) (count : Z) (c : CharT) : basic_ostream :=
  put_chars os (repeat c (Z.to_nat count)).

(** [operator <<].  The comparison [width > s.size()] and the difference
    [width - s.size()] mix [std::streamsize] with [size_type] and are
    therefore carried out in [size_type].  The buffer modelled here never
    throws, so the [catch] clause is not entered. *)
Definition op_shl (os : basic_ostream) (s : basic_string_view) : outcome basic_ostream :=
  if sentry os then
    let width := os_width os in
    os' <- (if size_type.wrap width >? size s then
              let adjustfield := Z.land (os_flags os) ios_adjustfield in
              let pad := size_type.wrap (size_type.wrap width - size s) in
              if adjustfield =? ios_left then
                os1 <- sputn os (data s) (size s) ;;
                Ok (std_fill_n os1 pad (os_fill os1))
              else
                sputn (std_fill_n os pad (os_fill os)) (data s) (size s)
            else sputn os (data s) (size s)) ;;
    Ok (set_width os' 0)
  else Ok (setstate os ios_failbit).

(** The number of fill characters the inserter writes when it pads. *)
Definition padding (os : basic_ostream) (s : basic_string_view) : Z :=
  size_type.wrap (size_type.wrap (os_width os) - size s).

(** *** Well-formed views *)

(** The view's window lies inside the array it points into; a null view has
    length zero. *)
Definition valid_view (v : basic_string_view) : bool :=
  (0 <=? _len v) && (_len v <=? ptrdiff_max) &&
  match _data v with
  | None => _len v =? 0
  | Some a =>
      (0 <=? position a) &&
      (position a + _len v <=? Z.of_nat (List.length (object a)))
  end.

(** The characters a view shows. *)
Definition contents (v : basic_string_view) : list CharT :=
  match _data v with
  | None => []
  | Some a => firstn (Z.to_nat (_len v)) (skipn (Z.to_nat (position a)) (object a))
  end.

(** [needle] is a prefix of [l], characters compared with [Traits::eq]. *)
Fixpoint starts_with_list (l needle : list CharT) : bool :=
  match needle, l with
  | [], _ => true
  | y :: needle', x :: l' => Traits_eq x y && starts_with_list l' needle'
  | _ :: _, [] => false
  end.

(** [needle] occurs in [hay] at offset [i]. *)
Definition occurs_at (hay needle : list CharT) (i : nat) : bool :=
  starts_with_list (skipn i hay) needle.

(** [c] is a member of the character set [set]. *)
Definition member (c : CharT) (set : list CharT) : bool :=
  existsb (fun x => Traits_eq x c) set.

(** The characters of [l] can be read one after the other starting at [p]. *)
Fixpoint reads (p : const_pointer) (l : list CharT) : Prop :=
  match l with
  | [] => True
  | c :: l' => load p = Ok c /\ reads (ptr_add p 1) l'
  end.

(** [v.substr(j, s.size()) == s] returns true. *)
Definition equals_at (v s : basic_string_view) (j : Z) : Prop :=
  exists w, substr v j (Some (size s)) = Ok w /\ op_eq w s = Ok true.

(** [k] is the offset of the first occurrence of [needle] in [hay], or the
    length of [hay] when there is none. *)
Definition first_occurrence (hay needle : list CharT) (k : nat) : Prop :=
  (k <= List.length hay)%nat /\
  (forall j, (j < k)%nat -> occurs_at hay needle j = false) /\
  (occurs_at hay needle k = true \/
   (k = List.length hay /\ forall j, occurs_at hay needle j = false)).

(** [k] is the offset of the last occurrence of [needle] in [hay], or the
    length of [hay] when there is none. *)
Definition last_occurrence (hay needle : list CharT) (k : nat) : Prop :=
  (k <= List.length hay)%nat /\
  (forall j, (k < j)%nat -> occurs_at hay needle j = false) /\
  (occurs_at hay needle k = true \/
   (k = List.length hay /\ forall j, occurs_at hay needle j = false)).

(** What [find_end_loop] knows when it is about to search from offset [f]
    with [r] as its result so far, [n] being the length of the haystack. *)
Definition find_end_inv (hay needle : list CharT) (f r : nat) : Prop :=
  (r = List.length hay /\ forall j, (j < f)%nat -> occurs_at hay needle j = false) \/
  ((r < f)%nat /\ occurs_at hay needle r = true /\
   forall j, (r < j < f)%nat -> occurs_at hay needle j = false).

(** The call raised [std::out_of_range]. *)
Definition throws_out_of_range {A : Type} (c : outcome A) : Prop :=
  exists what, c = Throw (out_of_range what).

End StringView.

#[export] Existing Instance pointer_iterator.
#[export] Existing Instance reverse_pointer_iterator.

Arguments address : clear implicits.
Arguments const_pointer : clear implicits.
Arguments basic_string_view : clear implicits.
Arguments basic_ostream : clear implicits.

(** ** The rest of the interface *)

Section Interface.

Context {CharT : Type} {T : Traits CharT}.

Variable NDEBUG : bool.

(** [basic_string_view(const CharT* first, const CharT* last)]: no null
    check, the length is the pointer difference converted to [size_type]. *)
Definition view_of_range (first last : const_pointer CharT) : basic_string_view CharT :=
  {| _data := first; _len := size_type.wrap (ptr_diff last first) |}.

(** *** Modifiers (the new value of [*this] is returned) *)

Definition clear (v : basic_string_view CharT) : basic_string_view CharT :=
  empty_view.

Definition remove_prefix (v : basic_string_view CharT) (n : Z)
  : outcome (basic_string_view CharT) :=
  assert NDEBUG (n <=? size v)
    "xtd::basic_string_view::remove_prefix: n is bigger than string" ;;;
  Ok {| _data := ptr_add (_data v) n; _len := size_type.wrap (_len v - n) |}.

Definition remove_suffix (v : basic_string_view CharT) (n : Z)
  : outcome (basic_string_view CharT) :=
  assert NDEBUG (n <=? size v)
    "xtd::basic_string_view::remove_suffix: n is bigger than string" ;;;
  Ok {| _data := _data v; _len := size_type.wrap (_len v - n) |}.

(** [a.swap(b)]: the new values of [a] and [b]. *)
Definition swap (a b : basic_string_view CharT)
  : basic_string_view CharT * basic_string_view CharT :=
  ({| _data := _data b; _len := _len b |}, {| _data := _data a; _len := _len a |}).

(** *** Prefix and suffix tests *)

Definition starts_with (v prefix : basic_string_view CharT) : outcome bool :=
  assertNonNull NDEBUG v ;;;
  assertNonNull NDEBUG prefix ;;;
  if size v >=? size prefix then
    c <- Traits_compare (data v) (data prefix) (Z.to_nat (size prefix)) ;;
    Ok (c =? 0)
  else Ok false.

Definition starts_with_ch (v : basic_string_view CharT) (ch : CharT) : outcome bool :=
  if size v >? 0 then c <- front NDEBUG v ;; Ok (Traits_eq ch c) else Ok false.

Definition ends_with (v suffix : basic_string_view CharT) : outcome bool :=
  assertNonNull NDEBUG v ;;;
  assertNonNull NDEBUG suffix ;;;
  if size v >=? size suffix then
    c <- Traits_compare (ptr_add (ptr_add (data v) (size v)) (- size suffix))
           (data suffix) (Z.to_nat (size suffix)) ;;
    Ok (c =? 0)
  else Ok false.

Definition ends_with_ch (v : basic_string_view CharT) (ch : CharT) : outcome bool :=
  if size v >? 0 then c <- back NDEBUG v ;; Ok (Traits_eq ch c) else Ok false.

(** *** Conversions; a [std::basic_string] is the list of its characters *)

(** [explicit operator std::basic_string<CharT, Traits, Allocator>()] *)
Definition to_basic_string (v : basic_string_view CharT) : outcome (list CharT) :=
  if is_null (_data v) then Ok [] else read_n (_data v) (Z.to_nat (_len v)).

(** [to_string(s)]: the string built from the range [[cbegin(), cend())]. *)
Definition to_string (v : basic_string_view CharT) : outcome (list CharT) :=
  read_n (cbegin v) (Z.to_nat (ptr_diff (cend v) (cbegin v))).

(** *** Relational operators on two views *)

Definition op_ne (a b : basic_string_view CharT) : outcome bool :=
  if negb (size a =? size b) then Ok true
  else c <- compare a b ;; Ok (negb (c =? 0)).





(** *** Null-terminated strings *)

(** [CharT()], the terminator. *)
Variable nul : CharT.

(** The loop of [Traits::length] over the characters that remain in the
    array: it counts up to the first terminator and runs off the array when
    there is none. *)
Fixpoint length_until (l : list CharT) : outcome Z :=
  match l with
  | [] => Undefined
  | c :: l' =>
      if Traits_eq c nul then Ok 0
      else n <- length_until l' ;; Ok (n + 1)
  end.

(** [Traits::length(p)] *)
Definition Traits_length (p : const_pointer CharT) : outcome Z :=
  match p with
  | None => Undefined
  | Some a =>
      if position a <? 0 then Undefined
      else length_until (skipn (Z.to_nat (position a)) (object a))
  end.

(** [basic_string_view(const CharT* chars)] *)
Definition view_of_cstr (chars : const_pointer CharT)
  : outcome (basic_string_view CharT) :=
  if is_null chars then Ok {| _data := chars; _len := 0 |}
  else n <- Traits_length chars ;; Ok {| _data := chars; _len := n |}.

(** [str.data()]: the characters of the string followed by the terminator. *)
Definition string_data (str : list CharT) : const_pointer CharT :=
  Some {| object := str ++ [nul]; position := 0 |}.

(** [basic_string_view(const std::basic_string<CharT, Traits, Allocator>& str)] *)
Definition view_of_string (str : list CharT) : basic_string_view CharT :=
  {| _data := string_data str; _len := Z.of_nat (List.length str) |}.

(** *** Reference notions for the theorems *)

(** The characters of [l] are what an iterator reads from [first] on. *)
Fixpoint iter_reads {It : Type} {I : @Iterator CharT It} (first : It) (l : list CharT) : Prop :=
  match l with
  | [] => True
  | c :: l' => deref first = Ok c /\ iter_reads (next first) l'
  end.

(** [k] is the position of the first character of [l] that satisfies
    [pred], or the length of [l] when none does. *)
Definition first_where (pred : CharT -> bool) (l : list CharT) (k : nat) : Prop :=
  (k <= List.length l)%nat /\
  (forall j c, (j < k)%nat -> nth_error l j = Some c -> pred c = false) /\
  ((k < List.length l)%nat -> exists c, nth_error l k = Some c /\ pred c = true).

(** [r] is the index of the first character of [l] that satisfies [pred],
    absent when none does. *)
Definition first_match (pred : CharT -> bool) (l : list CharT) (r : option Z) : Prop :=
  match r with
  | Some i =>
      0 <= i /\
      (exists c, nth_error l (Z.to_nat i) = Some c /\ pred c = true) /\
      (forall j c, (j < Z.to_nat i)%nat -> nth_error l j = Some c -> pred c = false)
  | None => forall c, In c l -> pred c = false
  end.

(** [r] is the index of the last character of [l] that satisfies [pred],
    absent when none does. *)
Definition last_match (pred : CharT -> bool) (l : list CharT) (r : option Z) : Prop :=
  match r with
  | Some i =>
      0 <= i /\
      (exists c, nth_error l (Z.to_nat i) = Some c /\ pred c = true) /\
      (forall j c, (Z.to_nat i < j)%nat -> nth_error l j = Some c -> pred c = false)
  | None => forall c, In c l -> pred c = false
  end.

(** Lexicographic order of two character sequences by [Traits::lt], a proper
    prefix sorting first: -1, 0 or 1. *)
Fixpoint lex_compare (l1 l2 : list CharT) : Z :=
  match l1, l2 with
  | [], [] => 0
  | [], _ :: _ => -1
  | _ :: _, [] => 1
  | a :: l1', b :: l2' =>
      if Traits_lt a b then -1
      else if Traits_lt b a then 1
      else lex_compare l1' l2'
  end.

(** [suffix] is a suffix of [l], characters compared with [Traits::eq]. *)
Definition ends_with_list (l suffix : list CharT) : bool :=
  (List.length suffix <=? List.length l)%nat &&
  starts_with_list (skipn (List.length l - List.length suffix) l) suffix.

(** [c] equals some character of [set], [c] being the left argument of
    [Traits::eq] as in [std::find_first_of]. *)
Definition matches_set (set : list CharT) (c : CharT) : bool :=
  existsb (fun y => Traits_eq c y) set.

End Interface.

(** ** [string_view = basic_string_view<char>] *)

Lemma char_lt_irrefl : forall a, char_lt a a = false.
Proof. intro a. unfold char_lt. apply N.ltb_irrefl. Qed.

Lemma char_eq_lt : forall a b,
  char_eq a b = true <-> (char_lt a b = false /\ char_lt b a = false).
Proof.
  intros a b. unfold char_eq, char_lt. rewrite Ascii.eqb_eq, !N.ltb_ge. split.
  - intros ->. split; apply N.le_refl.
  - intros [H1 H2].
    rewrite <- (ascii_N_embedding a), <- (ascii_N_embedding b).
    f_equal. apply N.le_antisymm; assumption.
Qed.

#[export] Instance char_traits : Traits ascii := {
  Traits_eq := char_eq;
  Traits_lt := char_lt;
  Traits_lt_irrefl := char_lt_irrefl;
  Traits_eq_lt := char_eq_lt
}.

Definition string_view : Type := basic_string_view ascii.

(** The array of a string literal: its characters and the terminating zero. *)
Definition literal (s : string) : list ascii :=
  list_ascii_of_string s ++ [zero].

(** [string_view{"...", len}]: the first [len] characters of a literal. *)
Definition sv (s : string) (len : Z) : string_view :=
  view_of (Some {| object := literal s; position := 0 |}) len.

(** Two views used as concrete inputs. *)
Definition hello : string_view := sv "hello" 5.
Definition banana : string_view := sv "banana" 6.

(** [std::cout] with the given width, fill and flags and nothing written yet. *)
Definition fresh_stream (width : Z) (fill : ascii) (flags : Z) : basic_ostream ascii :=
  {| os_width := width; os_fill := fill; os_flags := flags;
     os_rdstate := 0; os_rdbuf := [] |}.

(** * Properties *)

Section Properties.

Context {CharT : Type} {T : Traits CharT}.

Implicit Types (v s x w : basic_string_view CharT) (p q : const_pointer CharT).
Implicit Types (l hay nd : list CharT).

(** ** Pointer arithmetic and reads *)

Lemma ptr_add_0 : forall p, ptr_add p 0 = p.
Proof.
  intros [[obj pos]|]; simpl; [|reflexivity].
  now rewrite Z.add_0_r.
Qed.

Lemma ptr_add_add : forall p a b, ptr_add (ptr_add p a) b = ptr_add p (a + b).
Proof.
  intros [[obj pos]|] a b; simpl; [|reflexivity].
  now rewrite Z.add_assoc.
Qed.

Lemma ptr_eqb_add : forall p a b,
  is_null p = false -> ptr_eqb (ptr_add p a) (ptr_add p b) = (a =? b).
Proof.
  intros [[obj pos]|] a b Hp; simpl in *; [|discriminate].
  destruct (Z.eqb_spec a b); [subst; apply Z.eqb_refl|].
  apply Z.eqb_neq. lia.
Qed.

Lemma ptr_diff_add : forall p a,
  is_null p = false -> ptr_diff (ptr_add p a) p = a.
Proof.
  intros [[obj pos]|] a Hp; simpl in *; [lia|discriminate].
Qed.

Lemma wrap_small : forall z, 0 <= z <= size_type.max -> size_type.wrap z = z.
Proof.
  intros z Hz. unfold size_type.wrap. apply Z.mod_small.
  unfold size_type.max in Hz. lia.
Qed.

Lemma ptrdiff_max_lt_max : 2 * ptrdiff_max < size_type.max.
Proof. reflexivity. Qed.

(** ** substr *)

Lemma checkPosition_ok : forall v pos,
  pos < size v -> checkPosition v pos = Ok true.
Proof.
  intros v pos H. unfold checkPosition.
  destruct (Z.geb_spec pos (size v)); [lia|reflexivity].
Qed.

Lemma checkPosition_throws : forall v pos,
  size v <= pos ->
  checkPosition v pos = Throw (out_of_range "xtd::basic_string_view pos out of range.").
Proof.
  intros v pos H. unfold checkPosition.
  destruct (Z.geb_spec pos (size v)); [reflexivity|lia].
Qed.

Lemma substr_ok : forall v pos n,
  pos < size v -> substr v pos n = Ok (view_of (offset v pos) (tail v pos n)).
Proof.
  intros v pos n H. unfold substr. now rewrite checkPosition_ok.
Qed.

Lemma substr_throws : forall v pos n,
  size v <= pos ->
  substr v pos n = Throw (out_of_range "xtd::basic_string_view pos out of range.").
Proof.
  intros v pos n H. unfold substr. now rewrite checkPosition_throws.
Qed.

(** C6: [substr(pos, n)] raises [std::out_of_range] exactly when
    [pos >= size()], and returns a view exactly when [pos < size()]; so
    [substr(size(), n)] always raises, also on a view of length zero. *)
Theorem substr_out_of_range_iff : forall v pos n,
  (throws_out_of_range (substr v pos n) <-> size v <= pos) /\
  ((exists w, substr v pos n = Ok w) <-> pos < size v) /\
  throws_out_of_range (substr v (size v) n) /\
  (size v = 0 -> throws_out_of_range (substr v 0 n)).
Proof.
  intros v pos n. repeat split.
  - intros [what H]. destruct (Z.lt_ge_cases pos (size v)) as [Hlt|Hge]; [|exact Hge].
    rewrite substr_ok in H by exact Hlt. discriminate.
  - intros H. eexists. apply substr_throws. exact H.
  - intros [w H]. destruct (Z.lt_ge_cases pos (size v)) as [Hlt|Hge]; [exact Hlt|].
    rewrite substr_throws in H by exact Hge. discriminate.
  - intros H. eexists. apply substr_ok. exact H.
  - eexists. apply substr_throws. lia.
  - intros H. eexists. apply substr_throws. lia.
Qed.

(** Without overflow in [n + pos], [tail] is the smaller of the requested
    and the remaining length. *)
Lemma tail_no_overflow : forall v pos n,
  0 <= pos < size v -> size v <= size_type.max ->
  0 <= n -> n + pos <= size_type.max ->
  tail v pos (Some n) = Z.min n (size v - pos).
Proof.
  intros v pos n Hpos Hmax Hn Hsum. unfold tail.
  rewrite (wrap_small (n + pos)) by lia.
  rewrite (wrap_small (size v - pos)) by lia.
  destruct (Z.gtb_spec (n + pos) (size v)); lia.
Qed.

Lemma tail_absent : forall v pos,
  0 <= pos < size v -> size v <= size_type.max ->
  tail v pos None = size v - pos.
Proof.
  intros v pos Hpos Hmax. unfold tail. apply wrap_small. lia.
Qed.

(** ** operator[] *)

(** C7 (amended): in a debug build [operator[]] asserts that the view is not
    null-backed and that it is not empty, in this order; the assertion fails
    exactly when the data pointer is null or the length is zero, and in every
    other case, also when [pos >= size()], the character at [_data + pos] is
    accessed. *)
Theorem index_debug_assertions : forall v pos,
  is_assert_fail (index false v pos) = is_null (data v) || (size v <=? 0) /\
  (is_null (data v) || (size v <=? 0) = false ->
   index false v pos = load (ptr_add (_data v) pos)).
Proof.
  intros v pos. unfold index, assertNonNull, assertNonEmpty, assert, data, size.
  destruct (_data v) as [a|]; simpl.
  - destruct (Z.gtb_spec (_len v) 0) as [Hgt|Hle];
      destruct (Z.leb_spec (_len v) 0); try lia; simpl.
    + split; [|reflexivity].
      destruct a as [obj k]; simpl. destruct (k + pos <? 0); [reflexivity|].
      destruct (nth_error obj (Z.to_nat (k + pos))); reflexivity.
    + split; [reflexivity|discriminate].
  - split; [reflexivity|discriminate].
Qed.

(** ** Single-character searches *)

(** C10: [find_first_of(ch)] is [find(ch)] and [find_last_of(ch)] is
    [rfind(ch)], in every build and for every view. *)
Theorem find_of_ch_delegates : forall NDEBUG v (ch : CharT),
  find_first_of_ch NDEBUG v ch = find_ch NDEBUG v ch /\
  find_last_of_ch NDEBUG v ch = rfind_ch NDEBUG v ch.
Proof. intros NDEBUG v ch. split; reflexivity. Qed.

(** ** find with an empty needle *)

Lemma assertNonNull_ok : forall NDEBUG v,
  is_null (data v) = false -> assertNonNull NDEBUG v = Ok true.
Proof.
  intros NDEBUG v H. unfold assertNonNull, assert, data in *.
  rewrite H. simpl. destruct NDEBUG; reflexivity.
Qed.

Lemma forwardIterOffset_add : forall v k,
  is_null (data v) = false ->
  forwardIterOffset v (ptr_add (data v) k) = if k =? size v then None else Some k.
Proof.
  intros v k H. unfold forwardIterOffset, end_, cend, begin, cbegin.
  rewrite ptr_eqb_add by exact H. rewrite ptr_diff_add by exact H. reflexivity.
Qed.

(** C3 (amended): on a view whose data pointer is non-null, [find] of an
    empty view returns index 0 when the receiver has at least one character
    and no index when the receiver has length zero. *)
Theorem find_empty_needle : forall NDEBUG v s,
  is_null (data v) = false -> size s = 0 ->
  find NDEBUG v s = Ok (if size v =? 0 then None else Some 0).
Proof.
  intros NDEBUG v s Hv Hs. unfold find.
  rewrite assertNonNull_ok by exact Hv. simpl.
  unfold distance at 2. rewrite Hs. simpl.
  destruct (distance v); simpl.
  - rewrite <- (ptr_add_0 (begin v)). unfold begin, cbegin.
    rewrite forwardIterOffset_add by exact Hv.
    now rewrite (Z.eqb_sym 0).
  - rewrite <- (ptr_add_0 (begin v)). unfold begin, cbegin.
    rewrite forwardIterOffset_add by exact Hv.
    now rewrite (Z.eqb_sym 0).
Qed.


(** ** Reading a valid view *)

Lemma skipn_cons_inv : forall k l (c : CharT) rest,
  skipn k l = c :: rest -> nth_error l k = Some c /\ skipn (S k) l = rest.
Proof.
  induction k as [|k IH]; intros [|a l] c rest H; simpl in *; try discriminate.
  - inversion H. split; reflexivity.
  - apply IH. exact H.
Qed.

Lemma reads_window : forall k (obj : list CharT) pos,
  reads (Some {| object := obj; position := Z.of_nat pos |})
        (firstn k (skipn pos obj)).
Proof.
  induction k as [|k IH]; intros obj pos; [exact I|].
  destruct (skipn pos obj) as [|c rest] eqn:E; [exact I|].
  apply skipn_cons_inv in E. destruct E as [Hnth Hrest].
  simpl. split.
  - destruct (Z.ltb_spec (Z.of_nat pos) 0); [lia|].
    rewrite Nat2Z.id, Hnth. reflexivity.
  - specialize (IH obj (S pos)). rewrite Hrest in IH.
    replace (Z.of_nat pos + 1) with (Z.of_nat (S pos)) by lia. exact IH.
Qed.

Lemma valid_view_bounds : forall v,
  valid_view v = true -> 0 <= size v <= ptrdiff_max.
Proof.
  intros v H. unfold valid_view, size in *.
  apply andb_prop in H. destruct H as [H _].
  apply andb_prop in H. destruct H as [H1 H2]. lia.
Qed.

Lemma valid_view_nonnull : forall v,
  valid_view v = true -> 0 < size v -> is_null (data v) = false.
Proof.
  intros v H Hpos. unfold valid_view, size, data in *.
  destruct (_data v); [reflexivity|].
  apply andb_prop in H. destruct H as [_ H]. lia.
Qed.

Lemma reads_contents : forall v,
  valid_view v = true -> reads (data v) (contents v).
Proof.
  intros v H. unfold valid_view, contents, data in *.
  destruct (_data v) as [[obj pos]|]; [|exact I].
  simpl in *. apply andb_prop in H. destruct H as [_ H].
  apply andb_prop in H. destruct H as [Hpos _].
  replace pos with (Z.of_nat (Z.to_nat pos)) at 1 by lia.
  apply reads_window.
Qed.

Lemma contents_length : forall v,
  valid_view v = true -> List.length (contents v) = distance v.
Proof.
  intros v H. pose proof (valid_view_bounds v H) as Hb.
  unfold valid_view, contents, distance, size in *.
  destruct (_data v) as [[obj pos]|]; simpl in *.
  - apply andb_prop in H. destruct H as [_ H].
    apply andb_prop in H. destruct H as [Hpos Hend].
    rewrite length_firstn, length_skipn. lia.
  - apply andb_prop in H. destruct H as [_ H]. lia.
Qed.

Lemma reads_skipn : forall k l p,
  reads p l -> reads (ptr_add p (Z.of_nat k)) (skipn k l).
Proof.
  induction k as [|k IH]; intros l p H.
  - simpl. now rewrite ptr_add_0.
  - destruct l as [|c l]; [exact I|].
    destruct H as [_ H]. apply IH in H.
    rewrite ptr_add_add in H.
    replace (Z.of_nat (S k)) with (1 + Z.of_nat k) by lia. exact H.
Qed.

(** ** compare *)

Lemma Traits_compare_refl : forall l p,
  reads p l -> Traits_compare p p (List.length l) = Ok 0.
Proof.
  induction l as [|c l IH]; intros p H; [reflexivity|].
  destruct H as [Hc H]. simpl. rewrite Hc. simpl.
  rewrite Traits_lt_irrefl. apply IH. exact H.
Qed.

Lemma order_by_size_refl : forall v, order_by_size v v = 0.
Proof. intros v. unfold order_by_size. now rewrite Z.eqb_refl. Qed.

Lemma compare_refl : forall v, valid_view v = true -> compare v v = Ok 0.
Proof.
  intros v H. unfold compare. rewrite Z.min_id.
  destruct (Z.leb_spec (size v) 0); [now rewrite order_by_size_refl|].
  fold (size v). fold (distance v). rewrite <- (contents_length v H).
  rewrite Traits_compare_refl by (apply reads_contents; exact H).
  simpl. now rewrite order_by_size_refl.
Qed.

Lemma substr_0 : forall v,
  valid_view v = true -> 0 < size v -> substr v 0 None = Ok v.
Proof.
  intros v H Hpos. pose proof (valid_view_bounds v H) as Hb.
  pose proof (valid_view_nonnull v H Hpos) as Hnn.
  pose proof ptrdiff_max_lt_max as Hmax.
  rewrite substr_ok by exact Hpos. f_equal.
  unfold offset. destruct (Z.geb_spec 0 (size v)); [lia|].
  rewrite ptr_add_0, tail_absent by lia.
  unfold view_of. fold (data v). rewrite Hnn.
  destruct v as [d n]. unfold size. simpl. now rewrite Z.sub_0_r.
Qed.

(** C4 (amended): for every valid view with at least one character,
    [substr(0)] returns a view, and comparing that view with the original
    gives 0. *)
Theorem substr_0_compares_equal : forall v,
  valid_view v = true -> 0 < size v ->
  exists w, substr v 0 None = Ok w /\ compare w v = Ok 0.
Proof.
  intros v H Hpos. exists v. split.
  - apply substr_0; assumption.
  - apply compare_refl. exact H.
Qed.

(** ** The inserter *)

Lemma read_n_reads : forall l p, reads p l -> read_n p (List.length l) = Ok l.
Proof.
  induction l as [|c l IH]; intros p H; [reflexivity|].
  destruct H as [Hc H]. simpl. rewrite Hc. simpl. rewrite (IH _ H). reflexivity.
Qed.

Lemma sputn_view : forall (os : basic_ostream CharT) s,
  valid_view s = true ->
  sputn os (data s) (size s) = Ok (put_chars os (contents s)).
Proof.
  intros os s H. unfold sputn. fold (distance s).
  rewrite <- (contents_length s H).
  rewrite read_n_reads by (apply reads_contents; exact H). reflexivity.
Qed.

(** The inserter on a good stream, by cases on its two tests. *)
Lemma op_shl_pads_before : forall (os : basic_ostream CharT) s,
  valid_view s = true -> sentry os = true ->
  (size_type.wrap (os_width os) >? size s) = true ->
  (Z.land (os_flags os) ios_adjustfield =? ios_left) = false ->
  op_shl os s =
  Ok (set_width (put_chars (std_fill_n os (padding os s) (os_fill os)) (contents s)) 0).
Proof.
  intros os s Hs Hok Hw Hadj. unfold op_shl. rewrite Hok, Hw, Hadj.
  rewrite sputn_view by exact Hs. reflexivity.
Qed.

Lemma op_shl_pads_after : forall (os : basic_ostream CharT) s,
  valid_view s = true -> sentry os = true ->
  (size_type.wrap (os_width os) >? size s) = true ->
  (Z.land (os_flags os) ios_adjustfield =? ios_left) = true ->
  op_shl os s =
  Ok (set_width (std_fill_n (put_chars os (contents s)) (padding os s) (os_fill os)) 0).
Proof.
  intros os s Hs Hok Hw Hadj. unfold op_shl. rewrite Hok, Hw, Hadj.
  rewrite sputn_view by exact Hs. reflexivity.
Qed.

Lemma op_shl_no_padding : forall (os : basic_ostream CharT) s,
  valid_view s = true -> sentry os = true ->
  (size_type.wrap (os_width os) >? size s) = false ->
  op_shl os s = Ok (set_width (put_chars os (contents s)) 0).
Proof.
  intros os s Hs Hok Hw. unfold op_shl. rewrite Hok, Hw.
  rewrite sputn_view by exact Hs. reflexivity.
Qed.

(** X20: what the inserter writes when the field width is not negative: the
    deficit [width - size()] in fill characters, after the content when the
    adjustment is [left] and before it otherwise, or the content alone when
    there is no deficit; the width is 0 afterwards. *)
Lemma op_shl_nonnegative_width : forall (os : basic_ostream CharT) s,
  valid_view s = true -> sentry os = true ->
  0 <= os_width os <= ptrdiff_max ->
  exists os',
    op_shl os s = Ok os' /\ os_width os' = 0 /\
    os_rdbuf os' =
      os_rdbuf os ++
      (if size s <? os_width os then
         let fill := repeat (os_fill os) (Z.to_nat (os_width os - size s)) in
         if Z.land (os_flags os) ios_adjustfield =? ios_left
         then contents s ++ fill else fill ++ contents s
       else contents s).
Proof.
  intros os s Hs Hok Hw. pose proof (valid_view_bounds s Hs) as Hb.
  pose proof ptrdiff_max_lt_max as Hmax.
  assert (Hwrap : size_type.wrap (os_width os) = os_width os)
    by (apply wrap_small; lia).
  destruct (Z.ltb_spec (size s) (os_width os)) as [Hlt|Hge].
  - assert (Hpad : padding os s = os_width os - size s).
    { unfold padding. rewrite Hwrap. apply wrap_small. lia. }
    assert (Hgt : (size_type.wrap (os_width os) >? size s) = true).
    { rewrite Hwrap. destruct (Z.gtb_spec (os_width os) (size s)); [reflexivity|lia]. }
    destruct (Z.land (os_flags os) ios_adjustfield =? ios_left) eqn:Hadj.
    + eexists. split; [apply op_shl_pads_after; assumption|].
      rewrite Hpad. split; [reflexivity|]. simpl. now rewrite app_assoc.
    + eexists. split; [apply op_shl_pads_before; assumption|].
      rewrite Hpad. split; [reflexivity|]. simpl. now rewrite app_assoc.
  - assert (Hgt : (size_type.wrap (os_width os) >? size s) = false).
    { rewrite Hwrap. destruct (Z.gtb_spec (os_width os) (size s)); [lia|reflexivity]. }
    eexists. split; [apply op_shl_no_padding; assumption|].
    split; reflexivity.
Qed.

Lemma op_shl_pads_before_rdbuf : forall (os : basic_ostream CharT) s,
  valid_view s = true -> sentry os = true ->
  (size_type.wrap (os_width os) >? size s) = true ->
  (Z.land (os_flags os) ios_adjustfield =? ios_left) = false ->
  exists os',
    op_shl os s = Ok os' /\
    os_rdbuf os' =
      os_rdbuf os ++ repeat (os_fill os) (Z.to_nat (padding os s)) ++ contents s.
Proof.
  intros os s Hs Hok Hw Hadj. eexists.
  split; [apply op_shl_pads_before; assumption|].
  unfold set_width, put_chars, std_fill_n. cbn [os_rdbuf].
  now rewrite app_assoc.
Qed.

End Properties.

(** ** find and rfind *)

Section Searching.

Context {CharT : Type} {T : Traits CharT}.

Implicit Types (v s w : basic_string_view CharT) (p q : const_pointer CharT).
Implicit Types (l hay nd : list CharT).

Lemma starts_with_list_nil : forall l, starts_with_list l [] = true.
Proof. intros [|x l]; reflexivity. Qed.

Lemma starts_with_list_length : forall nd l,
  starts_with_list l nd = true -> (List.length nd <= List.length l)%nat.
Proof.
  induction nd as [|y nd IH]; intros [|x l] H; simpl in *; try lia; try discriminate.
  apply andb_prop in H. destruct H as [_ H]. apply IH in H. lia.
Qed.

Lemma occurs_at_bound : forall hay nd j,
  nd <> [] -> occurs_at hay nd j = true ->
  (j + List.length nd <= List.length hay)%nat.
Proof.
  intros hay nd j Hnd H. unfold occurs_at in H.
  apply starts_with_list_length in H. rewrite length_skipn in H.
  destruct nd as [|y nd]; [congruence|]. simpl in *. lia.
Qed.

Lemma occurs_at_cons : forall c hay nd j,
  occurs_at (c :: hay) nd (S j) = occurs_at hay nd j.
Proof. reflexivity. Qed.

Lemma occurs_at_skipn : forall hay nd f j,
  occurs_at (skipn f hay) nd j = occurs_at hay nd (f + j).
Proof.
  intros hay nd f j. unfold occurs_at. rewrite skipn_skipn.
  now rewrite Nat.add_comm.
Qed.

Lemma search_inner_reads : forall nd hay p q,
  reads p hay -> reads q nd ->
  exists r,
    search_inner p (List.length hay) q (List.length nd) Traits_eq = Ok r /\
    (r = NeedleEnd <-> starts_with_list hay nd = true) /\
    (r = HaystackEnd -> (List.length hay < List.length nd)%nat).
Proof.
  induction nd as [|y nd IH]; intros hay p q Hp Hq.
  - exists NeedleEnd. rewrite starts_with_list_nil.
    split; [reflexivity|]. split; [split; reflexivity|discriminate].
  - destruct hay as [|x hay].
    + exists HaystackEnd. simpl.
      split; [reflexivity|]. split; [split; discriminate|intros; lia].
    + destruct Hp as [Hx Hp]. destruct Hq as [Hy Hq]. simpl.
      rewrite Hx, Hy. simpl.
      destruct (Traits_eq x y).
      * destruct (IH hay _ _ Hp Hq) as [r [Hr [Hn Hh]]].
        exists r. split; [exact Hr|]. split; [exact Hn|].
        intros E. apply Hh in E. lia.
      * exists Mismatch. simpl.
        split; [reflexivity|]. split; [split; discriminate|discriminate].
Qed.

Lemma std_search_eq : forall p n q m (eq : CharT -> CharT -> bool),
  std_search p n q m eq =
  (r <- search_inner p n q m eq ;;
   match r with
   | NeedleEnd => Ok p
   | HaystackEnd => Ok (ptr_add p (Z.of_nat n))
   | Mismatch =>
       match n with
       | O => Ok p
       | S n' => std_search (ptr_add p 1) n' q m eq
       end
   end).
Proof. intros p [|n] q m eq; reflexivity. Qed.

Lemma std_search_reads : forall hay nd p q,
  reads p hay -> reads q nd ->
  exists k,
    std_search p (List.length hay) q (List.length nd) Traits_eq
      = Ok (ptr_add p (Z.of_nat k)) /\
    first_occurrence hay nd k.
Proof.
  induction hay as [|c hay IH]; intros nd p q Hp Hq.
  - exists O. simpl Z.of_nat. rewrite ptr_add_0. destruct nd as [|y nd]; simpl.
    + split; [reflexivity|]. split; [lia|]. split; [intros; lia|].
      left. reflexivity.
    + rewrite ptr_add_0. split; [reflexivity|].
      split; [simpl; lia|]. split; [intros; lia|]. right.
      split; [reflexivity|]. intros j. unfold occurs_at. now rewrite skipn_nil.
  - destruct (search_inner_reads nd (c :: hay) p q Hp Hq) as [r [Hr [Hn Hh]]].
    destruct r.
    + exists O. rewrite std_search_eq, Hr. cbn [bind].
      simpl Z.of_nat. rewrite ptr_add_0. split; [reflexivity|].
      split; [lia|]. split; [intros; lia|]. left.
      apply Hn. reflexivity.
    + exists (List.length (c :: hay)). rewrite std_search_eq, Hr. cbn [bind].
      split; [reflexivity|].
      assert (Hnone : forall j, occurs_at (c :: hay) nd j = false).
      { intros j. destruct (occurs_at (c :: hay) nd j) eqn:E; [|reflexivity].
        unfold occurs_at in E. apply starts_with_list_length in E.
        rewrite length_skipn in E. specialize (Hh eq_refl). lia. }
      split; [lia|]. split; [intros; apply Hnone|]. right.
      split; [reflexivity|exact Hnone].
    + destruct Hp as [_ Hp].
      destruct (IH nd _ q Hp Hq) as [k [Hk [Hle [Hbefore Hat]]]].
      exists (S k). rewrite std_search_eq, Hr. cbn [bind List.length].
      rewrite Hk, ptr_add_add.
      replace (1 + Z.of_nat k) with (Z.of_nat (S k)) by lia.
      split; [reflexivity|].
      assert (H0 : occurs_at (c :: hay) nd 0 = false).
      { unfold occurs_at. simpl skipn.
        destruct (starts_with_list (c :: hay) nd); [|reflexivity].
        destruct Hn as [_ Hn]. discriminate (Hn eq_refl). }
      split; [simpl; lia|]. split.
      * intros [|j] Hj; [exact H0|]. rewrite occurs_at_cons. apply Hbefore. lia.
      * destruct Hat as [Hat|[Hlen Hnone]]; [left; exact Hat|right].
        split; [simpl; lia|].
        intros [|j]; [exact H0|]. rewrite occurs_at_cons. apply Hnone.
Qed.

Lemma find_reads : forall NDEBUG v s,
  valid_view v = true -> valid_view s = true -> is_null (data v) = false ->
  exists k,
    first_occurrence (contents v) (contents s) k /\
    find NDEBUG v s
      = Ok (if Z.of_nat k =? size v then None else Some (Z.of_nat k)).
Proof.
  intros NDEBUG v s Hv Hs Hnn. unfold find.
  rewrite assertNonNull_ok by exact Hnn. cbn [bind].
  rewrite <- (contents_length v Hv), <- (contents_length s Hs).
  destruct (std_search_reads (contents v) (contents s) (begin v) (begin s))
    as [k [Hk Hfirst]]; try (apply reads_contents; assumption).
  exists k. split; [exact Hfirst|].
  rewrite Hk. cbn [bind]. unfold begin, cbegin.
  now rewrite forwardIterOffset_add by exact Hnn.
Qed.

(** *** [substr(j, s.size()) == s] is an occurrence at [j] *)

Lemma Traits_compare_reads : forall nd l p q,
  reads p l -> reads q nd -> (List.length nd <= List.length l)%nat ->
  exists c,
    Traits_compare p q (List.length nd) = Ok c /\
    (c = 0 <-> starts_with_list l nd = true).
Proof.
  induction nd as [|y nd IH]; intros l p q Hp Hq Hlen.
  - exists 0. rewrite starts_with_list_nil. split; [reflexivity|]. split; reflexivity.
  - destruct l as [|x l]; [simpl in Hlen; lia|].
    destruct Hp as [Hx Hp]. destruct Hq as [Hy Hq]. simpl. rewrite Hx, Hy. simpl.
    destruct (Traits_lt x y) eqn:Hxy; [|destruct (Traits_lt y x) eqn:Hyx].
    + assert (E : Traits_eq x y = false).
      { destruct (Traits_eq x y) eqn:E; [|reflexivity].
        apply Traits_eq_lt in E. destruct E; congruence. }
      exists (-1). rewrite E. simpl.
      split; [reflexivity|]. split; [intros; lia|discriminate].
    + assert (E : Traits_eq x y = false).
      { destruct (Traits_eq x y) eqn:E; [|reflexivity].
        apply Traits_eq_lt in E. destruct E; congruence. }
      exists 1. rewrite E. simpl.
      split; [reflexivity|]. split; [intros; lia|discriminate].
    + assert (E : Traits_eq x y = true) by (apply Traits_eq_lt; split; assumption).
      rewrite E. simpl. apply IH; try assumption. simpl in Hlen. lia.
Qed.

Lemma is_null_ptr_add : forall p k, is_null (ptr_add p k) = is_null p.
Proof. intros [a|] k; reflexivity. Qed.

Lemma view_of_nonnull : forall p len,
  is_null p = false -> view_of p len = {| _data := p; _len := len |}.
Proof. intros p len H. unfold view_of. now rewrite H. Qed.

Lemma substr_window : forall v j m,
  valid_view v = true -> 0 <= j -> 0 < m -> j + m <= size v ->
  substr v j (Some m) = Ok {| _data := ptr_add (data v) j; _len := m |}.
Proof.
  intros v j m Hv Hj Hm Hfit. pose proof (valid_view_bounds v Hv) as Hb.
  pose proof ptrdiff_max_lt_max as Hmax.
  rewrite substr_ok by lia. f_equal.
  unfold offset. destruct (Z.geb_spec j (size v)); [lia|].
  rewrite tail_no_overflow by lia. rewrite Z.min_l by lia.
  apply view_of_nonnull. rewrite is_null_ptr_add.
  apply valid_view_nonnull; [exact Hv|lia].
Qed.

Lemma substr_short : forall v j m,
  valid_view v = true -> 0 <= j < size v -> 0 <= m <= ptrdiff_max ->
  size v < j + m ->
  exists w, substr v j (Some m) = Ok w /\ size w = size v - j.
Proof.
  intros v j m Hv Hj Hm Hlong. pose proof (valid_view_bounds v Hv) as Hb.
  pose proof ptrdiff_max_lt_max as Hmax.
  eexists. split; [apply substr_ok; lia|].
  unfold offset. destruct (Z.geb_spec j (size v)); [lia|].
  rewrite tail_no_overflow by lia. rewrite Z.min_r by lia.
  rewrite view_of_nonnull; [reflexivity|].
  rewrite is_null_ptr_add. apply valid_view_nonnull; [exact Hv|lia].
Qed.

Lemma op_eq_window : forall v s j,
  valid_view v = true -> valid_view s = true ->
  0 <= j -> 0 < size s -> j + size s <= size v ->
  exists b,
    op_eq {| _data := ptr_add (data v) j; _len := size s |} s = Ok b /\
    (b = true <-> occurs_at (contents v) (contents s) (Z.to_nat j) = true).
Proof.
  intros v s j Hv Hs Hj Hm Hfit.
  pose proof (valid_view_bounds v Hv) as Hbv.
  destruct (Traits_compare_reads (contents s) (skipn (Z.to_nat j) (contents v))
              (ptr_add (data v) j) (data s)) as [c [Hc Hiff]].
  - replace j with (Z.of_nat (Z.to_nat j)) at 1 by lia.
    apply reads_skipn, reads_contents, Hv.
  - apply reads_contents, Hs.
  - rewrite length_skipn, !contents_length by assumption. unfold distance. lia.
  - rewrite (contents_length s Hs) in Hc. unfold distance in Hc.
    unfold op_eq, compare, order_by_size, size. cbn [_len _data data].
    fold (size s). rewrite Z.eqb_refl, Z.min_id.
    destruct (Z.leb_spec (size s) 0); [lia|].
    eexists. split; [rewrite Hc; cbn [bind]; reflexivity|].
    unfold occurs_at. rewrite <- Hiff.
    destruct (Z.eqb_spec c 0) as [E|E]; simpl.
    + split; [intros _; exact E|reflexivity].
    + destruct (Z.eqb_spec c 0); [contradiction|].
      split; [discriminate|intros; contradiction].
Qed.

Lemma equals_at_iff : forall v s j,
  valid_view v = true -> valid_view s = true -> 0 < size s -> 0 <= j ->
  (equals_at v s j <->
   occurs_at (contents v) (contents s) (Z.to_nat j) = true).
Proof.
  intros v s j Hv Hs Hm Hj.
  pose proof (valid_view_bounds v Hv) as Hbv.
  pose proof (valid_view_bounds s Hs) as Hbs.
  destruct (Z.le_gt_cases (j + size s) (size v)) as [Hfit|Hlong].
  - destruct (op_eq_window v s j Hv Hs Hj Hm Hfit) as [b [Hb Hiff]].
    unfold equals_at. rewrite substr_window by assumption. split.
    + intros [w [Hw Heq]]. inversion Hw; subst w. apply Hiff. congruence.
    + intros H. apply Hiff in H. subst b. eexists. split; [reflexivity|exact Hb].
  - split.
    + intros [w [Hw Heq]]. exfalso.
      destruct (Z.lt_ge_cases j (size v)) as [Hin|Hout].
      * destruct (substr_short v j (size s) Hv) as [w' [Hw' Hsz]]; try lia.
        rewrite Hw in Hw'. inversion Hw'; subst w'.
        unfold op_eq in Heq. destruct (Z.eqb_spec (size w) (size s)); [lia|discriminate].
      * rewrite substr_throws in Hw by lia. discriminate.
    + intros H. exfalso. apply occurs_at_bound in H.
      * rewrite !contents_length in H by assumption. unfold distance in H. lia.
      * intros E. apply (f_equal (@List.length CharT)) in E.
        rewrite contents_length in E by assumption. unfold distance in E.
        simpl in E. lia.
Qed.

(** [compare] returns 0 exactly on views of equal size whose characters are
    pairwise equal. *)
Lemma compare_zero_iff : forall v x,
  valid_view v = true -> valid_view x = true ->
  (compare v x = Ok 0 <->
   size v = size x /\ starts_with_list (contents v) (contents x) = true).
Proof.
  intros v x Hv Hx.
  pose proof (valid_view_bounds v Hv) as Hbv.
  pose proof (valid_view_bounds x Hx) as Hbx.
  unfold compare, order_by_size.
  destruct (Z.eqb_spec (size v) (size x)) as [E|E].
  - rewrite <- E, Z.min_id. destruct (Z.leb_spec (size v) 0) as [Hz|Hpos].
    + split; [intros _|reflexivity]. split; [reflexivity|].
      assert (Hnil : contents x = []).
      { apply length_zero_iff_nil. rewrite contents_length by exact Hx.
        unfold distance. lia. }
      rewrite Hnil. apply starts_with_list_nil.
    + destruct (Traits_compare_reads (contents x) (contents v) (data v) (data x))
        as [c [Hc Hiff]]; try (apply reads_contents; assumption).
      { rewrite !contents_length by assumption. unfold distance. lia. }
      rewrite (contents_length x Hx) in Hc. unfold distance in Hc.
      rewrite <- E in Hc. fold (size v). rewrite Hc. cbn [bind].
      rewrite <- Hiff. destruct (Z.eqb_spec c 0) as [Ec|Ec]; simpl.
      * split; [intros _; split; [reflexivity|assumption]|reflexivity].
      * split; [intros H; inversion H; contradiction|intros [_ H]; contradiction].
  - split; [|intros [H _]; contradiction]. intros H. exfalso.
    destruct (Z.min (size v) (size x) <=? 0).
    + destruct (size v <? size x); discriminate.
    + destruct (Traits_compare (data v) (data x) (Z.to_nat (_len v)))
        as [cmp| | |]; try discriminate.
      cbn [bind] in H. destruct (Z.eqb_spec cmp 0) as [Ec|Ec]; simpl in H.
      * destruct (size v <? size x); discriminate.
      * inversion H. contradiction.
Qed.

(** *** [std::find_end] returns the last occurrence *)

Lemma ptr_diff_add_add : forall p a b,
  is_null p = false -> ptr_diff (ptr_add p a) (ptr_add p b) = a - b.
Proof.
  intros [[obj pos]|] a b Hp; simpl in *; [lia|discriminate].
Qed.

Lemma occurs_at_beyond : forall hay nd j,
  nd <> [] -> (List.length hay <= j)%nat -> occurs_at hay nd j = false.
Proof.
  intros hay nd j Hnd Hj. destruct (occurs_at hay nd j) eqn:E; [|reflexivity].
  apply occurs_at_bound in E; [|exact Hnd].
  destruct nd as [|y nd]; [congruence|]. simpl in E. lia.
Qed.

Lemma find_end_loop_reads : forall rounds hay nd p q f r,
  nd <> [] -> is_null p = false -> reads p hay -> reads q nd ->
  (f <= List.length hay)%nat -> (List.length hay < rounds + f)%nat ->
  find_end_inv hay nd f r ->
  exists k,
    find_end_loop rounds (ptr_add p (Z.of_nat f))
      (ptr_add p (Z.of_nat (List.length hay))) q (List.length nd) Traits_eq
      (ptr_add p (Z.of_nat r))
    = Ok (ptr_add p (Z.of_nat k)) /\
    last_occurrence hay nd k.
Proof.
  induction rounds as [|rounds IH];
    intros hay nd p q f r Hnd Hp Hhay Hq Hf Hrounds Hinv; [lia|].
  destruct (std_search_reads (skipn f hay) nd (ptr_add p (Z.of_nat f)) q)
    as [k' [Hk' [Hle [Hbefore Hat]]]];
    [apply reads_skipn; exact Hhay|exact Hq|].
  rewrite length_skipn in Hle.
  assert (E : Z.to_nat (ptr_diff (ptr_add p (Z.of_nat (List.length hay)))
                                 (ptr_add p (Z.of_nat f)))
              = List.length (skipn f hay)).
  { rewrite ptr_diff_add_add by exact Hp. rewrite length_skipn. lia. }
  assert (Hfrom : forall j, (j < k')%nat -> occurs_at hay nd (f + j) = false).
  { intros j Hj. rewrite <- occurs_at_skipn. apply Hbefore. exact Hj. }
  destruct (Nat.eq_dec (f + k') (List.length hay)) as [Hend|Hfound].
  - exists r. cbn [find_end_loop]. rewrite E, Hk'. cbn [bind].
    rewrite ptr_add_add, ptr_eqb_add by exact Hp.
    replace (Z.of_nat f + Z.of_nat k' =? Z.of_nat (List.length hay)) with true
      by (symmetry; apply Z.eqb_eq; lia).
    split; [reflexivity|].
    assert (Hnone : forall j, (f <= j)%nat -> occurs_at hay nd j = false).
    { intros j Hj. destruct (Nat.lt_ge_cases j (List.length hay)) as [Hin|Hout].
      - replace j with (f + (j - f))%nat by lia. apply Hfrom. lia.
      - apply occurs_at_beyond; assumption. }
    destruct Hinv as [[Hr Hlow]|[Hr [Hocc Hbetween]]].
    + subst r. split; [lia|]. split.
      * intros j Hj. apply occurs_at_beyond; [exact Hnd|lia].
      * right. split; [reflexivity|]. intros j.
        destruct (Nat.lt_ge_cases j f); [apply Hlow|apply Hnone]; assumption.
    + split; [lia|]. split.
      * intros j Hj.
        destruct (Nat.lt_ge_cases j f); [apply Hbetween; lia|apply Hnone; assumption].
      * left. exact Hocc.
  - assert (Hocc : occurs_at hay nd (f + k') = true).
    { destruct Hat as [Hat|[Hlen _]].
      - rewrite <- occurs_at_skipn. exact Hat.
      - rewrite length_skipn in Hlen. lia. }
    destruct (IH hay nd p q (S (f + k')) (f + k')%nat) as [k [Hk Hlast]];
      try assumption; try lia.
    { right. split; [lia|]. split; [exact Hocc|]. intros j Hj. lia. }
    exists k. cbn [find_end_loop]. rewrite E, Hk'. cbn [bind next pointer_iterator].
    rewrite !ptr_add_add, ptr_eqb_add by exact Hp.
    replace (Z.of_nat f + Z.of_nat k' =? Z.of_nat (List.length hay)) with false
      by (symmetry; apply Z.eqb_neq; lia).
    replace (Z.of_nat f + Z.of_nat k' + 1) with (Z.of_nat (S (f + k'))) by lia.
    replace (Z.of_nat f + Z.of_nat k') with (Z.of_nat (f + k')) by lia.
    split; [exact Hk|exact Hlast].
Qed.

Lemma std_find_end_reads : forall hay nd p q,
  nd <> [] -> is_null p = false -> reads p hay -> reads q nd ->
  exists k,
    std_find_end p (List.length hay) q (List.length nd) Traits_eq
      = Ok (ptr_add p (Z.of_nat k)) /\
    last_occurrence hay nd k.
Proof.
  intros hay nd p q Hnd Hp Hhay Hq.
  destruct (find_end_loop_reads (S (List.length hay)) hay nd p q O (List.length hay))
    as [k [Hk Hlast]]; try assumption; try lia.
  { left. split; [reflexivity|]. intros j Hj. lia. }
  simpl Z.of_nat in Hk at 1. rewrite ptr_add_0 in Hk.
  exists k. split; [|exact Hlast].
  unfold std_find_end. destruct nd as [|y nd]; [congruence|]. exact Hk.
Qed.

Lemma rfind_reads : forall NDEBUG v s,
  valid_view v = true -> valid_view s = true -> is_null (data v) = false ->
  0 < size s ->
  exists k,
    last_occurrence (contents v) (contents s) k /\
    rfind NDEBUG v s
      = Ok (if Z.of_nat k =? size v then None else Some (Z.of_nat k)).
Proof.
  intros NDEBUG v s Hv Hs Hnn Hm. unfold rfind.
  rewrite assertNonNull_ok by exact Hnn. cbn [bind].
  rewrite <- (contents_length v Hv), <- (contents_length s Hs).
  destruct (std_find_end_reads (contents v) (contents s) (begin v) (begin s))
    as [k [Hk Hlast]]; try (apply reads_contents; assumption); try exact Hnn.
  { intros E. apply (f_equal (@List.length CharT)) in E.
    rewrite contents_length in E by assumption. unfold distance in E.
    simpl in E. lia. }
  exists k. split; [exact Hlast|].
  rewrite Hk. cbn [bind]. unfold begin, cbegin.
  now rewrite forwardIterOffset_add by exact Hnn.
Qed.

(** C8: on a valid non-null view and with a non-empty needle, [find] and
    [rfind] return; an index [i] returned by [find] satisfies
    [substr(i, needle.size()) == needle] and no smaller index does; an index
    [i] returned by [rfind] satisfies it and no larger index does. *)
Theorem find_rfind_round_trip : forall NDEBUG v s,
  valid_view v = true -> valid_view s = true ->
  is_null (data v) = false -> 0 < size s ->
  (exists r,
     find NDEBUG v s = Ok r /\
     forall i, r = Some i ->
       equals_at v s i /\ forall j, 0 <= j < i -> ~ equals_at v s j) /\
  (exists r,
     rfind NDEBUG v s = Ok r /\
     forall i, r = Some i ->
       equals_at v s i /\ forall j, i < j -> ~ equals_at v s j).
Proof.
  intros NDEBUG v s Hv Hs Hnn Hm.
  pose proof (valid_view_bounds v Hv) as Hbv. split.
  - destruct (find_reads NDEBUG v s Hv Hs Hnn) as [k [[Hle [Hbefore Hat]] Hfind]].
    eexists. split; [exact Hfind|]. intros i Hi.
    rewrite contents_length in Hle, Hat by exact Hv. unfold distance in Hle, Hat.
    destruct (Z.eqb_spec (Z.of_nat k) (size v)) as [E|E]; [discriminate|].
    inversion Hi; subst i. split.
    + apply equals_at_iff; try assumption; [lia|].
      rewrite Nat2Z.id. destruct Hat as [Hat|[Hlen _]]; [exact Hat|lia].
    + intros j Hj Heq. apply equals_at_iff in Heq; try assumption; [|lia].
      rewrite Hbefore in Heq by lia. discriminate.
  - destruct (rfind_reads NDEBUG v s Hv Hs Hnn Hm) as [k [[Hle [Hafter Hat]] Hfind]].
    eexists. split; [exact Hfind|]. intros i Hi.
    rewrite contents_length in Hle, Hat by exact Hv. unfold distance in Hle, Hat.
    destruct (Z.eqb_spec (Z.of_nat k) (size v)) as [E|E]; [discriminate|].
    inversion Hi; subst i. split.
    + apply equals_at_iff; try assumption; [lia|].
      rewrite Nat2Z.id. destruct Hat as [Hat|[Hlen _]]; [exact Hat|lia].
    + intros j Hj Heq. apply equals_at_iff in Heq; try assumption; [|lia].
      rewrite Hafter in Heq by lia. discriminate.
Qed.

End Searching.

(** ** Concrete runs on [string_view] *)

(** C1: [compare] passes the receiver's own length to [Traits::compare]
    instead of the common length.  With the receiver "abc" and the argument
    the two-character view "ab" cut out of "abd", the common prefix "ab" is
    equal and the argument is shorter, yet the result is negative; and it is
    negative in both directions. *)
Theorem compare_reads_past_common_prefix :
  contents (sv "abc" 3) = ["a"; "b"; "c"]%char /\
  contents (sv "abd" 2) = ["a"; "b"]%char /\
  compare (sv "abc" 3) (sv "abd" 2) = Ok (-1) /\
  compare (sv "abd" 2) (sv "abc" 3) = Ok (-1).
Proof. repeat split. Qed.

(** C2: [findNotOf] increments before it dereferences, so index 0 is never
    examined by [find_first_not_of] and the last index never by
    [find_last_not_of].  In "xab" the character at index 0 is not in the set
    "ab" and the forward search still finds nothing.  In "abx" the reverse
    search skips the 'x' at index 2 and ends by reading in front of the
    array; in "bax" with the set "a" it skips the 'x' at index 2 and returns
    index 0. *)
Theorem findNotOf_skips_first_element :
  member "x"%char (contents (sv "ab" 2)) = false /\
  find_first_not_of false (sv "xab" 3) (sv "ab" 2) = Ok None /\
  find_last_not_of (sv "abx" 3) (sv "ab" 2) = Undefined /\
  find_last_not_of (sv "bax" 3) (sv "ab" 1) = Ok (Some 0).
Proof. repeat split. Qed.

(** C5: the test [*n + pos > size()] of [tail] is computed in [size_type];
    with the largest [size_type] as requested length the sum wraps to 0 and
    the result keeps the requested length instead of the remaining one. *)
Theorem substr_length_overflow :
  exists w,
    substr (sv "ab" 2) 1 (Some size_type.max) = Ok w /\
    size w = size_type.max /\
    Z.min size_type.max (size (sv "ab" 2) - 1) = 1.
Proof. eexists. repeat split. Qed.

(** C3: [find] of an empty view does not return index 0 on every non-null
    view: on a non-null view of length zero it returns no index. *)
Lemma find_empty_needle_in_empty_view :
  ~ (forall v s : string_view,
       is_null (data v) = false -> size s = 0 ->
       find false v s = Ok (Some 0)).
Proof.
  intro H. specialize (H (sv "" 0) (sv "" 0) eq_refl eq_refl). discriminate H.
Qed.

Lemma find_empty_needle_witness :
  is_null (data (sv "hello" 5)) = false /\
  size (@empty_view ascii) = 0 /\
  find false (sv "hello" 5) empty_view = Ok (Some 0).
Proof.
  split; [reflexivity|]. split; [reflexivity|].
  exact (find_empty_needle false (sv "hello" 5) empty_view eq_refl eq_refl).
Defined.

(** C4: [substr(0)] does not succeed on every non-null view: on a non-null
    view of length zero it raises [std::out_of_range]. *)
Lemma substr_0_of_empty_view_throws :
  ~ (forall v : string_view,
       valid_view v = true -> is_null (data v) = false ->
       exists w, substr v 0 None = Ok w /\ compare w v = Ok 0).
Proof.
  intro H. destruct (H (sv "" 0) eq_refl eq_refl) as [w [Hw _]]. discriminate Hw.
Qed.

Lemma substr_0_compares_equal_witness :
  valid_view (sv "hello" 5) = true /\ 0 < size (sv "hello" 5) /\
  exists w, substr (sv "hello" 5) 0 None = Ok w /\ compare w (sv "hello" 5) = Ok 0.
Proof.
  split; [reflexivity|]. split; [reflexivity|].
  exact (substr_0_compares_equal (sv "hello" 5) eq_refl eq_refl).
Defined.

(** C7: the debug assertions of [operator[]] do not catch every
    [pos >= size()]: on the view "abc" at [pos = 3] both assertions pass and
    the terminating zero behind the view is read. *)
Lemma index_past_the_end_is_not_asserted :
  ~ (forall (v : string_view) (pos : Z),
       is_null (data v) = false -> size v <= pos ->
       is_assert_fail (index false v pos) = true).
Proof.
  intro H. specialize (H (sv "abc" 3) 3 eq_refl).
  assert (Hle : size (sv "abc" 3) <= 3) by (vm_compute; discriminate).
  specialize (H Hle). vm_compute in H. discriminate H.
Qed.

(** The scenario on "hello world". *)
Example hello_world_scenario :
  find false (sv "hello world" 11) (sv "world" 5) = Ok (Some 6) /\
  (exists w, substr (sv "hello world" 11) 6 None = Ok w /\
             contents w = list_ascii_of_string "world") /\
  rfind_ch false (sv "hello world" 11) "o"%char = Ok (Some 7) /\
  find_first_of false (sv "hello world" 11) (sv "aeiou" 5) = Ok (Some 1) /\
  throws_out_of_range (at_ false (sv "hello world" 11) 20).
Proof.
  split; [reflexivity|]. split; [eexists; split; reflexivity|].
  split; [reflexivity|]. split; [reflexivity|]. eexists. reflexivity.
Qed.

(** The formatted-output scenario: "ab" in a field of width 5 filled with '*'. *)
Example op_shl_right_justified :
  exists os',
    op_shl (fresh_stream 5 "*" ios_right) (sv "ab" 2) = Ok os' /\
    os_rdbuf os' = list_ascii_of_string "***ab" /\ os_width os' = 0.
Proof. eexists. repeat split. Qed.

Example op_shl_left_justified :
  exists os',
    op_shl (fresh_stream 5 "*" ios_left) (sv "ab" 2) = Ok os' /\
    os_rdbuf os' = list_ascii_of_string "ab***" /\ os_width os' = 0.
Proof. eexists. repeat split. Qed.

(** C9: the inserter compares the signed width with the unsigned size in
    [size_type].  With [os.width(-1)] the content "ab" is longer than the
    width, and instead of no padding the inserter writes [2^64 - 3] fill
    characters in front of it. *)
Theorem op_shl_negative_width_pads :
  exists os',
    op_shl (fresh_stream (-1) "*" ios_right) (sv "ab" 2) = Ok os' /\
    os_rdbuf os' =
      repeat "*"%char (Z.to_nat 18446744073709551613) ++ ["a"; "b"]%char.
Proof.
  destruct (op_shl_pads_before_rdbuf
              (fresh_stream (-1) "*" ios_right) (sv "ab" 2)
              eq_refl eq_refl eq_refl eq_refl) as [os' [Hrun Hbuf]].
  exists os'. split; [exact Hrun|].
  rewrite Hbuf. apply app_nil_l.
Qed.

(** C8 at work: 'o' in "hello world" is found first at 4 and last at 7. *)
Lemma find_rfind_round_trip_witness :
  find false (sv "hello world" 11) (sv "o" 1) = Ok (Some 4) /\
  rfind false (sv "hello world" 11) (sv "o" 1) = Ok (Some 7) /\
  (exists r,
     find false (sv "hello world" 11) (sv "o" 1) = Ok r /\
     forall i, r = Some i ->
       equals_at (sv "hello world" 11) (sv "o" 1) i /\
       forall j, 0 <= j < i -> ~ equals_at (sv "hello world" 11) (sv "o" 1) j) /\
  (exists r,
     rfind false (sv "hello world" 11) (sv "o" 1) = Ok r /\
     forall i, r = Some i ->
       equals_at (sv "hello world" 11) (sv "o" 1) i /\
       forall j, i < j -> ~ equals_at (sv "hello world" 11) (sv "o" 1) j).
Proof.
  split; [reflexivity|]. split; [reflexivity|].
  exact (find_rfind_round_trip false (sv "hello world" 11) (sv "o" 1)
           eq_refl eq_refl eq_refl eq_refl).
Defined.

(** * Further properties of the interface *)

Section AccessAndWindows.

Context {CharT : Type} {T : Traits CharT}.

Implicit Types (v s w : basic_string_view CharT) (p q : const_pointer CharT).
Implicit Types (l : list CharT).

Lemma reads_nth : forall l p k c,
  reads p l -> nth_error l k = Some c -> load (ptr_add p (Z.of_nat k)) = Ok c.
Proof.
  induction l as [|x l IH]; intros p k c Hp Hk; [destruct k; discriminate|].
  destruct Hp as [Hx Hp]. destruct k as [|k].
  - simpl in Hk. inversion Hk; subst. simpl Z.of_nat. now rewrite ptr_add_0.
  - simpl in Hk. specialize (IH _ _ _ Hp Hk). rewrite ptr_add_add in IH.
    replace (Z.of_nat (S k)) with (1 + Z.of_nat k) by lia. exact IH.
Qed.

Lemma view_load : forall v i,
  valid_view v = true -> 0 <= i < size v ->
  exists c,
    nth_error (contents v) (Z.to_nat i) = Some c /\
    load (ptr_add (data v) i) = Ok c.
Proof.
  intros v i Hv Hi.
  destruct (nth_error (contents v) (Z.to_nat i)) as [c|] eqn:E.
  - exists c. split; [reflexivity|].
    replace i with (Z.of_nat (Z.to_nat i)) at 1 by lia.
    eapply reads_nth; [apply reads_contents; exact Hv|exact E].
  - apply nth_error_None in E. rewrite contents_length in E by exact Hv.
    unfold distance in E. lia.
Qed.

Lemma assertNonEmpty_ok : forall NDEBUG v,
  0 < size v -> assertNonEmpty NDEBUG v = Ok true.
Proof.
  intros NDEBUG v H. unfold assertNonEmpty, assert, size in *.
  destruct (Z.gtb_spec (_len v) 0); [|lia]. destruct NDEBUG; reflexivity.
Qed.

Lemma index_in_range : forall NDEBUG v pos,
  valid_view v = true -> 0 <= pos < size v ->
  exists c,
    nth_error (contents v) (Z.to_nat pos) = Some c /\ index NDEBUG v pos = Ok c.
Proof.
  intros NDEBUG v pos Hv Hpos.
  destruct (view_load v pos Hv Hpos) as [c [Hc Hload]].
  exists c. split; [exact Hc|]. unfold index.
  rewrite assertNonNull_ok by (apply valid_view_nonnull; [exact Hv|lia]).
  rewrite assertNonEmpty_ok by lia. exact Hload.
Qed.

(** X1: on a valid non-null view, [at(pos)] and [operator[](pos)] return the
    character of the view at [pos] when [pos < size()], in every build, and
    [at(pos)] raises [std::out_of_range] when [pos >= size()]. *)
Theorem at_returns_character : forall NDEBUG v pos,
  valid_view v = true -> is_null (data v) = false -> 0 <= pos ->
  (pos < size v ->
   exists c,
     nth_error (contents v) (Z.to_nat pos) = Some c /\
     at_ NDEBUG v pos = Ok c /\ index NDEBUG v pos = Ok c) /\
  (size v <= pos -> throws_out_of_range (at_ NDEBUG v pos)).
Proof.
  intros NDEBUG v pos Hv Hnn Hpos. split.
  - intros Hlt. destruct (index_in_range NDEBUG v pos Hv) as [c [Hc Hidx]]; [lia|].
    exists c. split; [exact Hc|]. split; [|exact Hidx].
    unfold at_. rewrite assertNonNull_ok by exact Hnn.
    rewrite checkPosition_ok by exact Hlt. exact Hidx.
  - intros Hge. eexists. unfold at_. rewrite assertNonNull_ok by exact Hnn.
    rewrite checkPosition_throws by exact Hge. reflexivity.
Qed.

(** X2: on a valid view with at least one character [front()] and [back()]
    return its first and its last character; on a view of length zero both
    trip an assertion in a debug build. *)
Theorem front_back_characters : forall NDEBUG v,
  valid_view v = true ->
  (0 < size v ->
   exists a b,
     front NDEBUG v = Ok a /\ back NDEBUG v = Ok b /\
     hd_error (contents v) = Some a /\
     nth_error (contents v) (Z.to_nat (size v - 1)) = Some b) /\
  (size v = 0 ->
   is_assert_fail (front false v) = true /\ is_assert_fail (back false v) = true).
Proof.
  intros NDEBUG v Hv. pose proof (valid_view_bounds v Hv) as Hb.
  pose proof ptrdiff_max_lt_max as Hmax. split.
  - intros Hpos.
    destruct (index_in_range NDEBUG v 0 Hv) as [a [Ha Hfront]]; [lia|].
    destruct (index_in_range NDEBUG v (size v - 1) Hv) as [b [Hb' Hback]]; [lia|].
    exists a, b. split; [exact Hfront|]. split.
    + unfold back. rewrite wrap_small by lia. exact Hback.
    + split; [|exact Hb']. simpl in Ha. destruct (contents v); [discriminate|exact Ha].
  - intros Hz. unfold front, back, index, assertNonNull, assertNonEmpty, assert.
    unfold size in Hz. rewrite Hz. destruct (_data v); split; reflexivity.
Qed.

(** The window of [k] characters at offset [a] of a valid view. *)
Lemma window_contents : forall v a k,
  valid_view v = true -> 0 <= a -> 0 <= k -> a + k <= size v ->
  valid_view {| _data := ptr_add (data v) a; _len := k |} = true /\
  contents {| _data := ptr_add (data v) a; _len := k |}
    = firstn (Z.to_nat k) (skipn (Z.to_nat a) (contents v)).
Proof.
  intros v a k Hv Ha Hk Hfit. pose proof (valid_view_bounds v Hv) as Hb.
  unfold valid_view, contents, data, size in *.
  destruct (_data v) as [[obj P]|]; cbn [ptr_add _data _len object position] in *.
  - apply andb_prop in Hv. destruct Hv as [_ Hv].
    apply andb_prop in Hv. destruct Hv as [HP Hend]. split.
    + apply andb_true_intro. split; [apply andb_true_intro; split; lia|].
      apply andb_true_intro. split; lia.
    + rewrite skipn_firstn_comm, firstn_firstn, skipn_skipn.
      f_equal; [lia|f_equal; lia].
  - apply andb_prop in Hv. destruct Hv as [_ Hv]. split.
    + apply andb_true_intro. split; [apply andb_true_intro; split; lia|lia].
    + now rewrite skipn_nil, firstn_nil.
Qed.

(** X3: when [n + pos] does not overflow, [substr(pos, n)] on a valid view
    returns a valid view that points [pos] characters into the same storage
    and shows the first [n] characters from [pos] on, or all of them when
    [n] is absent. *)
Theorem substr_contents : forall v pos n,
  valid_view v = true -> 0 <= pos < size v ->
  match n with None => True | Some m => 0 <= m /\ m + pos <= size_type.max end ->
  exists w,
    substr v pos n = Ok w /\ valid_view w = true /\
    data w = ptr_add (data v) pos /\
    contents w =
      match n with
      | None => skipn (Z.to_nat pos) (contents v)
      | Some m => firstn (Z.to_nat m) (skipn (Z.to_nat pos) (contents v))
      end.
Proof.
  intros v pos n Hv Hpos Hn. pose proof (valid_view_bounds v Hv) as Hb.
  pose proof ptrdiff_max_lt_max as Hmax.
  assert (Hnn : is_null (ptr_add (data v) pos) = false).
  { rewrite is_null_ptr_add. apply valid_view_nonnull; [exact Hv|lia]. }
  assert (Hoff : offset v pos = ptr_add (data v) pos).
  { unfold offset. destruct (Z.geb_spec pos (size v)); [lia|reflexivity]. }
  rewrite substr_ok by lia. rewrite Hoff, view_of_nonnull by exact Hnn.
  eexists. split; [reflexivity|].
  destruct n as [m|].
  - destruct Hn as [Hm Hsum]. rewrite tail_no_overflow by lia.
    destruct (window_contents v pos (Z.min m (size v - pos)) Hv) as [Hw Hc]; try lia.
    split; [exact Hw|]. split; [reflexivity|]. rewrite Hc.
    destruct (Z.le_gt_cases m (size v - pos)).
    + now rewrite Z.min_l by lia.
    + rewrite Z.min_r by lia. rewrite !firstn_all2; try reflexivity;
        rewrite length_skipn, contents_length by exact Hv; unfold distance; lia.
  - rewrite tail_absent by lia.
    destruct (window_contents v pos (size v - pos) Hv) as [Hw Hc]; try lia.
    split; [exact Hw|]. split; [reflexivity|]. rewrite Hc.
    apply firstn_all2. rewrite length_skipn, contents_length by exact Hv.
    unfold distance. lia.
Qed.

(** X4: taking the tail from [a] and then the tail from [b] of the result is
    taking the tail from [a + b], as long as [a + b] is inside the view. *)
Theorem substr_substr : forall v a b,
  valid_view v = true -> 0 <= a -> 0 <= b -> a + b < size v ->
  exists w,
    substr v a None = Ok w /\ substr w b None = substr v (a + b) None.
Proof.
  intros v a b Hv Ha Hb Hfit. pose proof (valid_view_bounds v Hv) as Hbv.
  pose proof ptrdiff_max_lt_max as Hmax.
  assert (Hnn : is_null (data v) = false)
    by (apply valid_view_nonnull; [exact Hv|lia]).
  assert (Hsub : forall c, 0 <= c < size v ->
            substr v c None = Ok {| _data := ptr_add (data v) c; _len := size v - c |}).
  { intros c Hc. rewrite substr_ok by lia. unfold offset.
    destruct (Z.geb_spec c (size v)); [lia|].
    rewrite tail_absent by lia. rewrite view_of_nonnull; [reflexivity|].
    now rewrite is_null_ptr_add. }
  eexists. split; [apply Hsub; lia|].
  rewrite (Hsub (a + b)) by lia.
  rewrite substr_ok by (unfold size in *; cbn [_len]; lia).
  unfold offset, tail, size. cbn [_data _len].
  destruct (Z.geb_spec b (_len v - a)); [unfold size in *; lia|].
  rewrite wrap_small by (unfold size in *; lia).
  rewrite view_of_nonnull by (now rewrite !is_null_ptr_add).
  rewrite ptr_add_add. unfold data. do 2 f_equal. lia.
Qed.

(** X5: [remove_prefix(n)] and [remove_suffix(n)] with [n <= size()] leave a
    valid view of the remaining characters: all but the first [n], all but
    the last [n]; with [n > size()] both trip their assertion in a debug
    build. *)
Theorem remove_prefix_suffix_contents : forall NDEBUG v n,
  valid_view v = true ->
  (0 <= n <= size v ->
   (exists w,
      remove_prefix NDEBUG v n = Ok w /\ valid_view w = true /\
      contents w = skipn (Z.to_nat n) (contents v)) /\
   (exists w,
      remove_suffix NDEBUG v n = Ok w /\ valid_view w = true /\
      contents w = firstn (Z.to_nat (size v - n)) (contents v))) /\
  (size v < n ->
   is_assert_fail (remove_prefix false v n) = true /\
   is_assert_fail (remove_suffix false v n) = true).
Proof.
  intros NDEBUG v n Hv. pose proof (valid_view_bounds v Hv) as Hb.
  pose proof ptrdiff_max_lt_max as Hmax. split.
  - intros Hn.
    assert (Hassert : forall msg, assert NDEBUG (n <=? size v) msg = Ok true).
    { intros msg. unfold assert. destruct (Z.leb_spec n (size v)); [|lia].
      destruct NDEBUG; reflexivity. }
    split.
    + destruct (window_contents v n (size v - n) Hv) as [Hw Hc]; try lia.
      eexists. unfold remove_prefix. rewrite Hassert. cbn [bind].
      fold (size v). fold (data v). rewrite wrap_small by lia.
      split; [reflexivity|]. split; [exact Hw|]. rewrite Hc.
      apply firstn_all2. rewrite length_skipn, contents_length by exact Hv.
      unfold distance. lia.
    + destruct (window_contents v 0 (size v - n) Hv) as [Hw Hc]; try lia.
      rewrite ptr_add_0 in Hw, Hc.
      eexists. unfold remove_suffix. rewrite Hassert. cbn [bind].
      fold (size v). fold (data v). rewrite wrap_small by lia.
      split; [reflexivity|]. split; [exact Hw|]. exact Hc.
  - intros Hn. unfold remove_prefix, remove_suffix, assert.
    destruct (Z.leb_spec n (size v)); [lia|]. split; reflexivity.
Qed.

(** X6: for [n < size()], [remove_prefix(n)] leaves exactly the view that
    [substr(n)] returns. *)
Theorem remove_prefix_is_substr : forall NDEBUG v n,
  valid_view v = true -> 0 <= n < size v ->
  remove_prefix NDEBUG v n = substr v n None.
Proof.
  intros NDEBUG v n Hv Hn. pose proof (valid_view_bounds v Hv) as Hb.
  pose proof ptrdiff_max_lt_max as Hmax.
  rewrite substr_ok by lia. unfold remove_prefix, assert, offset, tail.
  destruct (Z.leb_spec n (size v)); [|lia].
  destruct (Z.geb_spec n (size v)); [lia|].
  rewrite view_of_nonnull.
  - destruct NDEBUG; reflexivity.
  - rewrite is_null_ptr_add. apply (valid_view_nonnull v Hv). lia.
Qed.

(** X7: the view built from the iterator pair [begin(), end()] of a valid
    view is that view. *)
Theorem view_of_range_begin_end : forall v,
  valid_view v = true -> view_of_range (begin v) (end_ v) = v.
Proof.
  intros v Hv. pose proof (valid_view_bounds v Hv) as Hb.
  pose proof ptrdiff_max_lt_max as Hmax.
  unfold view_of_range, begin, end_, cbegin, cend, data.
  destruct v as [[a|] n]; unfold size in *; cbn [_data _len] in *.
  - rewrite ptr_diff_add by reflexivity. rewrite wrap_small by lia. reflexivity.
  - unfold valid_view in Hv. cbn [_data _len] in Hv.
    apply andb_prop in Hv. destruct Hv as [_ Hv].
    simpl. replace n with 0 by lia. reflexivity.
Qed.

End AccessAndWindows.

(** ** Searches for a character or for a member of a set *)

Section CharacterSearches.

Context {CharT : Type} {T : Traits CharT}.

Implicit Types (v s : basic_string_view CharT) (p q : const_pointer CharT).
Implicit Types (l set : list CharT) (pred : CharT -> bool).

Lemma iter_reads_pointer : forall l p,
  reads p l -> iter_reads (I := pointer_iterator) p l.
Proof.
  induction l as [|c l IH]; intros p H; [exact I|].
  destruct H as [Hc H]. split; [exact Hc|]. apply IH. exact H.
Qed.

Lemma iter_next_pointer : forall k p,
  Nat.iter k (next (Iterator := pointer_iterator)) p = ptr_add p (Z.of_nat k).
Proof.
  induction k as [|k IH]; intros p.
  - simpl. now rewrite ptr_add_0.
  - rewrite Nat.iter_succ, IH. cbn [next pointer_iterator].
    rewrite ptr_add_add. f_equal. lia.
Qed.

Lemma iter_next_reverse : forall k (b : iterator (CharT := CharT)),
  Nat.iter k (next (Iterator := reverse_pointer_iterator)) {| base := b |}
  = {| base := ptr_add b (- Z.of_nat k) |}.
Proof.
  induction k as [|k IH]; intros b.
  - simpl. now rewrite ptr_add_0.
  - rewrite Nat.iter_succ, IH. cbn [next reverse_pointer_iterator base].
    rewrite ptr_add_add. do 2 f_equal. lia.
Qed.

Lemma reads_app : forall l1 l2 p,
  reads p (l1 ++ l2) ->
  reads p l1 /\ reads (ptr_add p (Z.of_nat (List.length l1))) l2.
Proof.
  induction l1 as [|c l1 IH]; intros l2 p H.
  - simpl. rewrite ptr_add_0. split; [exact I|exact H].
  - destruct H as [Hc H]. apply IH in H. destruct H as [H1 H2].
    split; [split; assumption|].
    rewrite ptr_add_add in H2.
    replace (Z.of_nat (List.length (c :: l1))) with (1 + Z.of_nat (List.length l1))
      by (simpl List.length; lia).
    exact H2.
Qed.

Lemma iter_reads_reverse : forall l p,
  reads p l ->
  iter_reads (I := reverse_pointer_iterator)
    {| base := ptr_add p (Z.of_nat (List.length l)) |} (rev l).
Proof.
  induction l as [|c l IH] using rev_ind; intros p H; [exact I|].
  rewrite rev_unit. apply reads_app in H. destruct H as [Hl [Hc _]].
  rewrite length_app. simpl List.length. split.
  - cbn [deref reverse_pointer_iterator base]. rewrite ptr_add_add.
    replace (Z.of_nat (List.length l + 1) + -1) with (Z.of_nat (List.length l)) by lia.
    exact Hc.
  - cbn [next reverse_pointer_iterator base]. rewrite ptr_add_add.
    replace (Z.of_nat (List.length l + 1) + -1) with (Z.of_nat (List.length l)) by lia.
    apply IH. exact Hl.
Qed.

Lemma first_where_cons_skip : forall pred c l k,
  pred c = false -> first_where pred l k -> first_where pred (c :: l) (S k).
Proof.
  intros pred c l k Hc [Hle [Hbefore Hat]]. split; [simpl; lia|]. split.
  - intros [|j] x Hj Hx; simpl in Hx.
    + inversion Hx; subst. exact Hc.
    + apply (Hbefore j); [lia|exact Hx].
  - intros Hk. simpl in Hk. apply Hat. lia.
Qed.

Lemma first_where_cons_hit : forall pred c l,
  pred c = true -> first_where pred (c :: l) 0.
Proof.
  intros pred c l Hc. split; [simpl; lia|]. split.
  - intros j x Hj. lia.
  - intros _. exists c. split; [reflexivity|exact Hc].
Qed.

Lemma first_where_nil : forall pred, first_where pred [] 0.
Proof.
  intros pred. split; [simpl; lia|]. split; [intros; lia|simpl; lia].
Qed.

Lemma std_find_if_iter : forall (It : Type) (I : Iterator It) l (first : It) pred,
  iter_reads first l ->
  exists k,
    std_find_if first (List.length l) pred = Ok (Nat.iter k next first) /\
    first_where pred l k.
Proof.
  intros It I. induction l as [|c l IH]; intros first pred H.
  - exists O. split; [reflexivity|apply first_where_nil].
  - destruct H as [Hc H]. simpl. rewrite Hc. cbn [bind].
    destruct (pred c) eqn:E.
    + exists O. split; [reflexivity|apply first_where_cons_hit; exact E].
    + destruct (IH _ pred H) as [k [Hk Hw]]. exists (S k).
      rewrite Nat.iter_succ_r. split; [exact Hk|].
      apply first_where_cons_skip; assumption.
Qed.

Lemma std_find_if_not_eq : forall (It : Type) (I : Iterator It) n (first : It) pred,
  std_find_if_not first n pred = std_find_if first n (fun c => negb (pred c)).
Proof.
  intros It I. induction n as [|n IH]; intros first pred; [reflexivity|].
  simpl. destruct (deref first); try reflexivity. cbn [bind].
  destruct (pred a); simpl; [apply IH|reflexivity].
Qed.

Lemma matches_any_reads : forall (It : Type) (I : Iterator It) set q (first : It) x,
  reads q set -> (set <> [] -> deref first = Ok x) ->
  matches_any first q (List.length set) Traits_eq = Ok (matches_set set x).
Proof.
  intros It I. induction set as [|y set IH]; intros q first x Hq Hx; [reflexivity|].
  destruct Hq as [Hy Hq]. simpl. rewrite Hx by discriminate.
  cbn [bind deref pointer_iterator]. rewrite Hy. cbn [bind].
  destruct (Traits_eq x y); [reflexivity|]. simpl.
  apply IH; [exact Hq|]. intros _. apply Hx. discriminate.
Qed.

Lemma std_find_first_of_iter : forall (It : Type) (I : Iterator It) set q l (first : It),
  reads q set -> iter_reads first l ->
  exists k,
    std_find_first_of first (List.length l) q (List.length set) Traits_eq
      = Ok (Nat.iter k next first) /\
    first_where (matches_set set) l k.
Proof.
  intros It I set q. induction l as [|c l IH]; intros first Hq H.
  - exists O. split; [reflexivity|apply first_where_nil].
  - destruct H as [Hc H]. simpl.
    rewrite (matches_any_reads It I set q first c Hq) by (intros _; exact Hc).
    cbn [bind]. destruct (matches_set set c) eqn:E.
    + exists O. split; [reflexivity|apply first_where_cons_hit; exact E].
    + destruct (IH _ Hq H) as [k [Hk Hw]]. exists (S k).
      rewrite Nat.iter_succ_r. split; [exact Hk|].
      apply first_where_cons_skip; assumption.
Qed.

Lemma first_where_first_match : forall pred l k,
  first_where pred l k ->
  first_match pred l
    (if Z.of_nat k =? Z.of_nat (List.length l) then None else Some (Z.of_nat k)).
Proof.
  intros pred l k [Hle [Hbefore Hat]].
  destruct (Z.eqb_spec (Z.of_nat k) (Z.of_nat (List.length l))) as [E|E].
  - intros c Hc. apply In_nth_error in Hc. destruct Hc as [j Hj].
    apply (Hbefore j); [|exact Hj].
    assert (j < List.length l)%nat by (apply nth_error_Some; congruence). lia.
  - split; [lia|]. rewrite Nat2Z.id. split; [apply Hat; lia|exact Hbefore].
Qed.

Lemma first_where_rev_last_match : forall pred l k,
  first_where pred (rev l) k ->
  last_match pred l
    (if Z.of_nat (List.length l) - Z.of_nat k =? 0 then None
     else Some (Z.of_nat (List.length l) - Z.of_nat k - 1)).
Proof.
  intros pred l k [Hle [Hbefore Hat]]. rewrite length_rev in Hle, Hat.
  destruct (Z.eqb_spec (Z.of_nat (List.length l) - Z.of_nat k) 0) as [E|E].
  - intros c Hc. apply In_nth_error in Hc. destruct Hc as [j Hj].
    assert (Hjn : (j < List.length l)%nat) by (apply nth_error_Some; congruence).
    apply (Hbefore (List.length l - S j)%nat); [lia|].
    rewrite nth_error_rev. destruct (Nat.ltb_spec (List.length l - S j) (List.length l)); [|lia].
    rewrite <- Hj. f_equal. lia.
  - split; [lia|]. split.
    + destruct Hat as [c [Hc Hp]]; [lia|]. exists c. split; [|exact Hp].
      rewrite nth_error_rev in Hc.
      destruct (Nat.ltb_spec k (List.length l)); [|lia].
      rewrite <- Hc. f_equal. lia.
    + intros j c Hj Hc.
      assert (Hjn : (j < List.length l)%nat) by (apply nth_error_Some; congruence).
      apply (Hbefore (List.length l - S j)%nat); [lia|].
      rewrite nth_error_rev.
      destruct (Nat.ltb_spec (List.length l - S j) (List.length l)); [|lia].
      rewrite <- Hc. f_equal. lia.
Qed.

Lemma forward_result : forall v pred k,
  valid_view v = true -> is_null (data v) = false ->
  first_where pred (contents v) k ->
  first_match pred (contents v)
    (forwardIterOffset v (Nat.iter k (next (Iterator := pointer_iterator)) (begin v))).
Proof.
  intros v pred k Hv Hnn Hw. pose proof (valid_view_bounds v Hv) as Hb.
  rewrite iter_next_pointer. unfold begin, cbegin.
  rewrite forwardIterOffset_add by exact Hnn.
  apply first_where_first_match in Hw.
  rewrite contents_length in Hw by exact Hv. unfold distance in Hw.
  rewrite Z2Nat.id in Hw by lia. exact Hw.
Qed.

Lemma reverse_result : forall v pred k,
  valid_view v = true -> is_null (data v) = false ->
  first_where pred (rev (contents v)) k ->
  last_match pred (contents v)
    (reverseIterOffset v (Nat.iter k (next (Iterator := reverse_pointer_iterator)) (rbegin v))).
Proof.
  intros v pred k Hv Hnn Hw. pose proof (valid_view_bounds v Hv) as Hb.
  unfold rbegin, crbegin. rewrite iter_next_reverse.
  unfold reverseIterOffset, rend, crend, cend, begin, cbegin. cbn [base].
  rewrite ptr_add_add. rewrite <- (ptr_add_0 (data v)) at 2.
  rewrite ptr_eqb_add by exact Hnn. rewrite ptr_diff_add by exact Hnn.
  apply first_where_rev_last_match in Hw.
  rewrite contents_length in Hw by exact Hv. unfold distance in Hw.
  rewrite Z2Nat.id in Hw by lia.
  replace (size v + - Z.of_nat k) with (size v - Z.of_nat k) by lia. exact Hw.
Qed.

Lemma rbegin_reads : forall v,
  valid_view v = true ->
  iter_reads (I := reverse_pointer_iterator) (rbegin v) (rev (contents v)).
Proof.
  intros v Hv. pose proof (valid_view_bounds v Hv) as Hb.
  unfold rbegin, crbegin, cend.
  replace (size v) with (Z.of_nat (List.length (contents v)))
    by (rewrite contents_length by exact Hv; unfold distance; lia).
  apply iter_reads_reverse, reads_contents, Hv.
Qed.

Lemma distance_rev : forall v,
  valid_view v = true -> distance v = List.length (rev (contents v)).
Proof. intros v Hv. now rewrite length_rev, contents_length. Qed.

(** X8: on a valid non-null view [find(ch)] returns the index of the first
    character equal to [ch] and [rfind(ch)] the index of the last one; both
    return no index exactly when no character of the view equals [ch]. *)
Theorem find_rfind_character : forall NDEBUG v ch,
  valid_view v = true -> is_null (data v) = false ->
  (exists r, find_ch NDEBUG v ch = Ok r /\
             first_match (fun c => Traits_eq c ch) (contents v) r) /\
  (exists r, rfind_ch NDEBUG v ch = Ok r /\
             last_match (fun c => Traits_eq c ch) (contents v) r).
Proof.
  intros NDEBUG v ch Hv Hnn. split.
  - destruct (std_find_if_iter _ pointer_iterator (contents v) (begin v)
                (fun c => Traits_eq c ch)) as [k [Hk Hw]];
      [apply iter_reads_pointer, reads_contents, Hv|].
    rewrite contents_length in Hk by exact Hv.
    eexists. unfold find_ch. rewrite assertNonNull_ok by exact Hnn. cbn [bind].
    rewrite Hk. cbn [bind]. split; [reflexivity|].
    apply forward_result; assumption.
  - destruct (std_find_if_iter _ reverse_pointer_iterator (rev (contents v)) (rbegin v)
                (fun c => Traits_eq c ch)) as [k [Hk Hw]];
      [apply rbegin_reads, Hv|].
    rewrite <- distance_rev in Hk by exact Hv.
    eexists. unfold rfind_ch. rewrite assertNonNull_ok by exact Hnn. cbn [bind].
    rewrite Hk. cbn [bind]. split; [reflexivity|].
    apply reverse_result; assumption.
Qed.

(** X9: on a valid non-null view and with a valid set view,
    [find_first_of(set)] returns the index of the first character that
    equals some character of the set and [find_last_of(set)] the index of the
    last one; both return no index exactly when the view has no such
    character, in particular when the set is empty. *)
Theorem find_first_last_of_set : forall NDEBUG v s,
  valid_view v = true -> valid_view s = true -> is_null (data v) = false ->
  (exists r, find_first_of NDEBUG v s = Ok r /\
             first_match (matches_set (contents s)) (contents v) r) /\
  (exists r, find_last_of NDEBUG v s = Ok r /\
             last_match (matches_set (contents s)) (contents v) r).
Proof.
  intros NDEBUG v s Hv Hs Hnn. split.
  - destruct (std_find_first_of_iter _ pointer_iterator (contents s) (begin s)
                (contents v) (begin v)) as [k [Hk Hw]];
      [apply reads_contents, Hs|apply iter_reads_pointer, reads_contents, Hv|].
    rewrite !contents_length in Hk by assumption.
    eexists. unfold find_first_of. rewrite assertNonNull_ok by exact Hnn. cbn [bind].
    rewrite Hk. cbn [bind]. split; [reflexivity|].
    apply forward_result; assumption.
  - destruct (std_find_first_of_iter _ reverse_pointer_iterator (contents s) (begin s)
                (rev (contents v)) (rbegin v)) as [k [Hk Hw]];
      [apply reads_contents, Hs|apply rbegin_reads, Hv|].
    rewrite <- distance_rev in Hk by exact Hv.
    rewrite contents_length in Hk by exact Hs.
    eexists. unfold find_last_of. rewrite assertNonNull_ok by exact Hnn. cbn [bind].
    rewrite Hk. cbn [bind]. split; [reflexivity|].
    apply reverse_result; assumption.
Qed.

(** X10: on a valid non-null view [find_first_not_of(ch)] returns the index
    of the first character that differs from [ch] and [find_last_not_of(ch)]
    the index of the last one; both return no index exactly when every
    character of the view equals [ch]. *)
Theorem find_not_of_character : forall NDEBUG v ch,
  valid_view v = true -> is_null (data v) = false ->
  (exists r, find_first_not_of_ch NDEBUG v ch = Ok r /\
             first_match (fun c => negb (Traits_eq c ch)) (contents v) r) /\
  (exists r, find_last_not_of_ch NDEBUG v ch = Ok r /\
             last_match (fun c => negb (Traits_eq ch c)) (contents v) r).
Proof.
  intros NDEBUG v ch Hv Hnn. split.
  - destruct (std_find_if_iter _ pointer_iterator (contents v) (begin v)
                (fun c => negb (Traits_eq c ch))) as [k [Hk Hw]];
      [apply iter_reads_pointer, reads_contents, Hv|].
    rewrite contents_length in Hk by exact Hv.
    eexists. unfold find_first_not_of_ch.
    rewrite assertNonNull_ok by exact Hnn. cbn [bind].
    rewrite std_find_if_not_eq, Hk. cbn [bind]. split; [reflexivity|].
    apply forward_result; assumption.
  - destruct (std_find_if_iter _ reverse_pointer_iterator (rev (contents v)) (rbegin v)
                (fun c => negb (Traits_eq ch c))) as [k [Hk Hw]];
      [apply rbegin_reads, Hv|].
    rewrite <- distance_rev in Hk by exact Hv.
    eexists. unfold find_last_not_of_ch.
    rewrite assertNonNull_ok by exact Hnn. cbn [bind].
    rewrite std_find_if_not_eq, Hk. cbn [bind]. split; [reflexivity|].
    apply reverse_result; assumption.
Qed.

End CharacterSearches.

(** ** More on find and rfind *)

Section FindAndRfind.

Context {CharT : Type} {T : Traits CharT}.

Implicit Types (v s : basic_string_view CharT).

(** X11: on a valid non-null view [rfind] of an empty view returns no index,
    whatever the length of the receiver. *)
Theorem rfind_empty_needle : forall NDEBUG v s,
  valid_view v = true -> is_null (data v) = false -> size s = 0 ->
  rfind NDEBUG v s = Ok None.
Proof.
  intros NDEBUG v s Hv Hnn Hs. pose proof (valid_view_bounds v Hv) as Hb.
  unfold rfind. rewrite assertNonNull_ok by exact Hnn. cbn [bind].
  unfold distance at 2. rewrite Hs. cbn [Z.to_nat std_find_end bind].
  unfold begin, cbegin. rewrite forwardIterOffset_add by exact Hnn.
  unfold distance. rewrite Z2Nat.id by lia. now rewrite Z.eqb_refl.
Qed.

Lemma contents_nonempty : forall s,
  valid_view s = true -> 0 < size s -> contents s <> [].
Proof.
  intros s Hs Hm E. apply (f_equal (@List.length CharT)) in E.
  rewrite contents_length in E by exact Hs. unfold distance in E.
  simpl in E. lia.
Qed.

(** X12: with a non-empty needle on a valid non-null view, [find] returns no
    index exactly when [rfind] returns none, and exactly when
    [substr(j, needle.size()) == needle] holds at no position [j]; when both
    return an index, the one of [find] is not larger than the one of [rfind]. *)
Theorem find_rfind_agree : forall NDEBUG v s,
  valid_view v = true -> valid_view s = true ->
  is_null (data v) = false -> 0 < size s ->
  exists rf rl,
    find NDEBUG v s = Ok rf /\ rfind NDEBUG v s = Ok rl /\
    (rf = None <-> rl = None) /\
    (rf = None <-> forall j, 0 <= j -> ~ equals_at v s j) /\
    (forall i k, rf = Some i -> rl = Some k -> i <= k).
Proof.
  intros NDEBUG v s Hv Hs Hnn Hm. pose proof (valid_view_bounds v Hv) as Hb.
  pose proof (contents_nonempty s Hs Hm) as Hne.
  destruct (find_reads NDEBUG v s Hv Hs Hnn) as [k1 [[Hle1 [Hbefore Hat1]] Hfind]].
  destruct (rfind_reads NDEBUG v s Hv Hs Hnn Hm) as [k2 [[Hle2 [Hafter Hat2]] Hrfind]].
  rewrite contents_length in Hle1, Hle2, Hat1, Hat2 by exact Hv.
  unfold distance in *.
  assert (Hbeyond : occurs_at (contents v) (contents s) (Z.to_nat (size v)) = false).
  { apply occurs_at_beyond; [exact Hne|].
    rewrite contents_length by exact Hv. unfold distance. lia. }
  assert (H1 : k1 = Z.to_nat (size v) ->
               forall j, occurs_at (contents v) (contents s) j = false).
  { intros E. destruct Hat1 as [Hat1|[_ Hnone]]; [congruence|exact Hnone]. }
  assert (H2 : k2 = Z.to_nat (size v) ->
               forall j, occurs_at (contents v) (contents s) j = false).
  { intros E. destruct Hat2 as [Hat2|[_ Hnone]]; [congruence|exact Hnone]. }
  assert (H1' : k1 <> Z.to_nat (size v) ->
                occurs_at (contents v) (contents s) k1 = true).
  { intros E. destruct Hat1 as [Hat1|[E' _]]; [exact Hat1|contradiction]. }
  assert (H2' : k2 <> Z.to_nat (size v) ->
                occurs_at (contents v) (contents s) k2 = true).
  { intros E. destruct Hat2 as [Hat2|[E' _]]; [exact Hat2|contradiction]. }
  eexists. eexists. split; [exact Hfind|]. split; [exact Hrfind|].
  destruct (Z.eqb_spec (Z.of_nat k1) (size v)) as [E1|E1];
    destruct (Z.eqb_spec (Z.of_nat k2) (size v)) as [E2|E2].
  - split; [split; reflexivity|]. split; [|intros; discriminate].
    split; [|reflexivity]. intros _ j Hj Heq.
    apply equals_at_iff in Heq; try assumption.
    rewrite H1 in Heq by lia. discriminate.
  - exfalso. rewrite H1 in H2' by lia. specialize (H2' ltac:(lia)). discriminate.
  - exfalso. rewrite H2 in H1' by lia. specialize (H1' ltac:(lia)). discriminate.
  - split; [split; discriminate|]. split.
    + split; [discriminate|]. intros Hnone. exfalso.
      apply (Hnone (Z.of_nat k1)); [lia|].
      apply equals_at_iff; try assumption; [lia|].
      rewrite Nat2Z.id. apply H1'. lia.
    + intros i k Hi Hk. inversion Hi; inversion Hk; subst.
      destruct (Nat.le_gt_cases k1 k2) as [Hle|Hgt]; [lia|].
      rewrite Hafter in H1' by lia. specialize (H1' ltac:(lia)). discriminate.
Qed.

End FindAndRfind.

(** ** Prefixes, suffixes and order *)

Section PrefixSuffixOrder.

Context {CharT : Type} {T : Traits CharT}.

Implicit Types (v s x a b : basic_string_view CharT).
Implicit Types (p q : const_pointer CharT) (l : list CharT).

Lemma starts_with_list_short : forall l nd,
  (List.length l < List.length nd)%nat -> starts_with_list l nd = false.
Proof.
  intros l nd H. destruct (starts_with_list l nd) eqn:E; [|reflexivity].
  apply starts_with_list_length in E. lia.
Qed.

Lemma eqb_zero_of_iff : forall c (b : bool), (c = 0 <-> b = true) -> (c =? 0) = b.
Proof.
  intros c b H. destruct (Z.eqb_spec c 0) as [E|E]; destruct b; try reflexivity.
  - apply H in E. discriminate.
  - exfalso. apply E, H. reflexivity.
Qed.

(** X13: on valid non-null views [starts_with(prefix)] tells whether the
    characters of [prefix] are the first characters of the view, and
    [ends_with(suffix)] whether the characters of [suffix] are its last
    ones, characters compared by the traits. *)
Theorem starts_ends_with_view : forall NDEBUG v s,
  valid_view v = true -> valid_view s = true ->
  is_null (data v) = false -> is_null (data s) = false ->
  starts_with NDEBUG v s = Ok (starts_with_list (contents v) (contents s)) /\
  ends_with NDEBUG v s = Ok (ends_with_list (contents v) (contents s)).
Proof.
  intros NDEBUG v s Hv Hs Hnv Hns.
  pose proof (valid_view_bounds v Hv) as Hbv.
  pose proof (valid_view_bounds s Hs) as Hbs.
  pose proof (contents_length v Hv) as Hlv.
  pose proof (contents_length s Hs) as Hls. unfold distance in Hlv, Hls.
  split.
  - unfold starts_with. rewrite !assertNonNull_ok by assumption. cbn [bind].
    destruct (Z.geb_spec (size v) (size s)) as [Hge|Hlt].
    + destruct (Traits_compare_reads (contents s) (contents v) (data v) (data s))
        as [c [Hc Hiff]]; try (apply reads_contents; assumption); [lia|].
      rewrite Hls in Hc. rewrite Hc. cbn [bind]. f_equal.
      apply eqb_zero_of_iff. exact Hiff.
    + rewrite starts_with_list_short by lia. reflexivity.
  - unfold ends_with, ends_with_list. rewrite !assertNonNull_ok by assumption.
    cbn [bind]. destruct (Z.geb_spec (size v) (size s)) as [Hge|Hlt].
    + destruct (Nat.leb_spec (List.length (contents s)) (List.length (contents v)));
        [|lia].
      destruct (Traits_compare_reads (contents s)
                  (skipn (List.length (contents v) - List.length (contents s)) (contents v))
                  (ptr_add (ptr_add (data v) (size v)) (- size s)) (data s))
        as [c [Hc Hiff]].
      * rewrite ptr_add_add.
        replace (size v + - size s)
          with (Z.of_nat (List.length (contents v) - List.length (contents s))) by lia.
        apply reads_skipn, reads_contents, Hv.
      * apply reads_contents, Hs.
      * rewrite length_skipn. lia.
      * rewrite Hls in Hc. rewrite Hc. cbn [bind andb]. f_equal.
        apply eqb_zero_of_iff. exact Hiff.
    + destruct (Nat.leb_spec (List.length (contents s)) (List.length (contents v)));
        [lia|reflexivity].
Qed.

(** X14: on a valid view [starts_with(ch)] tells whether the first character
    equals [ch] and [ends_with(ch)] whether the last one does; on a view of
    length zero, null or not, both return false in every build. *)
Theorem starts_ends_with_character : forall NDEBUG v ch,
  valid_view v = true ->
  starts_with_ch NDEBUG v ch
    = Ok (match hd_error (contents v) with
          | Some c => Traits_eq ch c
          | None => false
          end) /\
  ends_with_ch NDEBUG v ch
    = Ok (match hd_error (rev (contents v)) with
          | Some c => Traits_eq ch c
          | None => false
          end).
Proof.
  intros NDEBUG v ch Hv. pose proof (valid_view_bounds v Hv) as Hb.
  pose proof ptrdiff_max_lt_max as Hmax.
  pose proof (contents_length v Hv) as Hl. unfold distance in Hl.
  unfold starts_with_ch, ends_with_ch, front, back.
  destruct (Z.gtb_spec (size v) 0) as [Hpos|Hz].
  - destruct (index_in_range NDEBUG v 0 Hv) as [a [Ha Hfront]]; [lia|].
    destruct (index_in_range NDEBUG v (size v - 1) Hv) as [b [Hb' Hback]]; [lia|].
    rewrite wrap_small by lia. rewrite Hfront, Hback. cbn [bind].
    assert (Hhd : hd_error (contents v) = Some a).
    { simpl in Ha. destruct (contents v); [discriminate|exact Ha]. }
    assert (Hlast : hd_error (rev (contents v)) = Some b).
    { rewrite <- Hb'. 
      assert (E : hd_error (rev (contents v)) = nth_error (rev (contents v)) 0)
        by (destruct (rev (contents v)); reflexivity).
      rewrite E, nth_error_rev.
      destruct (Nat.ltb_spec 0 (List.length (contents v))); [|lia].
      f_equal. lia. }
    rewrite Hhd, Hlast. split; reflexivity.
  - assert (E : contents v = []).
    { apply length_zero_iff_nil. lia. }
    rewrite E. split; reflexivity.
Qed.

Lemma Traits_compare_lex : forall l1 l2 p q,
  reads p l1 -> reads q l2 -> (List.length l1 <= List.length l2)%nat ->
  exists c,
    Traits_compare p q (List.length l1) = Ok c /\
    lex_compare l1 l2 =
      (if negb (c =? 0) then c
       else if (List.length l1 =? List.length l2)%nat then 0 else -1).
Proof.
  induction l1 as [|a l1 IH]; intros l2 p q Hp Hq Hlen.
  - exists 0. split; [reflexivity|]. destruct l2; reflexivity.
  - destruct l2 as [|b l2]; [simpl in Hlen; lia|].
    destruct Hp as [Ha Hp]. destruct Hq as [Hb Hq].
    simpl. rewrite Ha, Hb. cbn [bind].
    destruct (Traits_lt a b); [exists (-1); split; reflexivity|].
    destruct (Traits_lt b a); [exists 1; split; reflexivity|].
    apply IH; try assumption. simpl in Hlen. lia.
Qed.

Lemma compare_not_longer : forall v x,
  valid_view v = true -> valid_view x = true -> size v <= size x ->
  compare v x = Ok (lex_compare (contents v) (contents x)).
Proof.
  intros v x Hv Hx Hle.
  pose proof (valid_view_bounds v Hv) as Hbv.
  pose proof (valid_view_bounds x Hx) as Hbx.
  pose proof (contents_length v Hv) as Hlv.
  pose proof (contents_length x Hx) as Hlx. unfold distance in Hlv, Hlx.
  destruct (Traits_compare_lex (contents v) (contents x) (data v) (data x))
    as [c [Hc Hlex]]; try (apply reads_contents; assumption); [lia|].
  unfold compare, order_by_size. rewrite Z.min_l by lia.
  destruct (Z.leb_spec (size v) 0) as [Hz|Hpos].
  - assert (E : contents v = []) by (apply length_zero_iff_nil; lia).
    rewrite E. f_equal. destruct (Z.eqb_spec (size v) (size x)) as [Es|Es].
    + assert (E' : contents x = []) by (apply length_zero_iff_nil; lia).
      rewrite E'. reflexivity.
    + destruct (Z.ltb_spec (size v) (size x)); [|lia].
      destruct (contents x); [simpl in Hlx; lia|reflexivity].
  - rewrite Hlv in Hc. fold (size v). rewrite Hc. cbn [bind]. f_equal.
    rewrite Hlex. destruct (negb (c =? 0)); [reflexivity|].
    destruct (Z.eqb_spec (size v) (size x)) as [Es|Es];
      destruct (Nat.eqb_spec (List.length (contents v)) (List.length (contents x)));
      try reflexivity; try lia.
    destruct (Z.ltb_spec (size v) (size x)); [reflexivity|lia].
Qed.


(** X16: on two valid views, [==] and [!=] always return, [!=] returns the
    negation of [==], and [==] returns true exactly when the views have the
    same size and pairwise equal characters. *)
Theorem equality_operators : forall a b,
  valid_view a = true -> valid_view b = true ->
  exists e,
    op_eq a b = Ok e /\ op_ne a b = Ok (negb e) /\
    (e = true <->
     size a = size b /\ starts_with_list (contents a) (contents b) = true).
Proof.
  intros a b Ha Hb. unfold op_eq, op_ne.
  destruct (Z.eqb_spec (size a) (size b)) as [E|E]; cbn [negb].
  - pose proof (compare_zero_iff a b Ha Hb) as Hzero.
    rewrite (compare_not_longer a b Ha Hb) in * by lia. cbn [bind].
    eexists. split; [reflexivity|]. split; [reflexivity|].
    rewrite <- Hzero. rewrite Z.eqb_eq. split; congruence.
  - exists false. split; [reflexivity|]. split; [reflexivity|].
    split; [discriminate|]. intros [H _]. contradiction.
Qed.

End PrefixSuffixOrder.

(** ** Conversions and constructors *)

Section Conversions.

Context {CharT : Type} {T : Traits CharT}.

Implicit Types (v s w : basic_string_view CharT) (l str pre rest : list CharT).

(** X17: converting a valid view to a string, by the conversion operator or
    by [to_string], gives exactly the characters of the view; a null view
    gives the empty string. *)
Theorem to_string_contents : forall v,
  valid_view v = true ->
  to_basic_string v = Ok (contents v) /\ to_string v = Ok (contents v).
Proof.
  intros v Hv. pose proof (valid_view_bounds v Hv) as Hb.
  pose proof (reads_contents v Hv) as Hr.
  pose proof (contents_length v Hv) as Hl. unfold distance in Hl.
  unfold to_basic_string, to_string, cbegin, cend, data, size in *.
  destruct (_data v) as [a|] eqn:E.
  - cbn [is_null]. rewrite ptr_diff_add by reflexivity.
    rewrite <- Hl. rewrite read_n_reads by exact Hr. split; reflexivity.
  - unfold contents. rewrite E. split; reflexivity.
Qed.

Lemma Traits_eq_refl : forall c : CharT, Traits_eq c c = true.
Proof.
  intros c. apply Traits_eq_lt. split; apply Traits_lt_irrefl.
Qed.

Lemma view_of_string_valid : forall nul str,
  Z.of_nat (List.length str) <= ptrdiff_max ->
  valid_view (view_of_string nul str) = true /\
  contents (view_of_string nul str) = str.
Proof.
  intros nul str Hlen. unfold view_of_string, string_data, valid_view, contents.
  cbn [_data _len object position]. split.
  - apply andb_true_intro. split; [apply andb_true_intro; split; lia|].
    apply andb_true_intro. split; [lia|]. rewrite length_app. cbn [List.length].
    apply Z.leb_le. lia.
  - rewrite Nat2Z.id. simpl skipn. rewrite firstn_app, Nat.sub_diag.
    simpl. rewrite firstn_all. apply app_nil_r.
Qed.

(** X18: the view built from a string shows exactly the characters of the
    string, and converting it back, either way, returns the string. *)
Theorem view_of_string_round_trip : forall nul str,
  Z.of_nat (List.length str) <= ptrdiff_max ->
  contents (view_of_string nul str) = str /\
  to_basic_string (view_of_string nul str) = Ok str /\
  to_string (view_of_string nul str) = Ok str.
Proof.
  intros nul str Hlen.
  destruct (view_of_string_valid nul str Hlen) as [Hv Hc].
  pose proof (reads_contents _ Hv) as Hr.
  pose proof (contents_length _ Hv) as Hl. unfold distance in Hl.
  rewrite Hc in Hr, Hl. split; [exact Hc|].
  unfold to_basic_string, to_string, cbegin, cend, data, size in *.
  cbn [view_of_string string_data _data _len is_null ptr_add ptr_diff object position] in *.
  replace (0 + Z.of_nat (List.length str) - 0) with (Z.of_nat (List.length str)) by lia.
  rewrite Nat2Z.id. rewrite read_n_reads by exact Hr. split; reflexivity.
Qed.

Lemma length_until_terminated : forall nul l rest,
  (forall c, In c l -> Traits_eq c nul = false) ->
  length_until nul (l ++ nul :: rest) = Ok (Z.of_nat (List.length l)).
Proof.
  intros nul. induction l as [|c l IH]; intros rest H.
  - simpl. now rewrite Traits_eq_refl.
  - simpl app. cbn [length_until]. rewrite (H c) by (left; reflexivity).
    rewrite IH by (intros x Hx; apply H; right; exact Hx).
    cbn [bind]. f_equal. simpl List.length. lia.
Qed.

Lemma length_until_unterminated : forall nul l,
  (forall c, In c l -> Traits_eq c nul = false) ->
  length_until nul l = Undefined.
Proof.
  intros nul. induction l as [|c l IH]; intros H; [reflexivity|].
  cbn [length_until]. rewrite (H c) by (left; reflexivity).
  rewrite IH by (intros x Hx; apply H; right; exact Hx). reflexivity.
Qed.

(** X19: the constructor from a null-terminated string, given a pointer to
    characters [l] none of which is the terminator, followed by a
    terminator, returns a valid view of exactly [l]; when the array ends
    without a terminator the scan runs off the array; and a null pointer
    gives the empty null view without any read. *)
Theorem view_of_cstr_contents : forall nul pre l rest,
  (forall c, In c l -> Traits_eq c nul = false) ->
  Z.of_nat (List.length l) <= ptrdiff_max ->
  (exists w,
     view_of_cstr nul
       (Some {| object := pre ++ l ++ nul :: rest;
                position := Z.of_nat (List.length pre) |}) = Ok w /\
     valid_view w = true /\ contents w = l) /\
  view_of_cstr nul
    (Some {| object := pre ++ l; position := Z.of_nat (List.length pre) |})
    = Undefined /\
  view_of_cstr nul None = Ok empty_view.
Proof.
  intros nul pre l rest Hl Hlen. split; [|split; [|reflexivity]].
  - unfold view_of_cstr, Traits_length. cbn [is_null position object].
    destruct (Z.ltb_spec (Z.of_nat (List.length pre)) 0); [lia|].
    rewrite Nat2Z.id, skipn_app, Nat.sub_diag, skipn_all. cbn [app skipn].
    rewrite length_until_terminated by exact Hl. cbn [bind].
    eexists. split; [reflexivity|]. split.
    + unfold valid_view. cbn [_data _len object position].
      apply andb_true_intro. split; [apply andb_true_intro; split; lia|].
      apply andb_true_intro. split; [lia|].
      rewrite !length_app. simpl List.length. apply Z.leb_le. lia.
    + unfold contents. cbn [_data _len object position].
      rewrite !Nat2Z.id, skipn_app, Nat.sub_diag, skipn_all. cbn [app skipn].
      rewrite firstn_app, Nat.sub_diag. simpl. rewrite firstn_all. apply app_nil_r.
  - unfold view_of_cstr, Traits_length. cbn [is_null position object].
    destruct (Z.ltb_spec (Z.of_nat (List.length pre)) 0); [lia|].
    rewrite Nat2Z.id, skipn_app, Nat.sub_diag, skipn_all. cbn [app skipn].
    rewrite length_until_unterminated by exact Hl. reflexivity.
Qed.

End Conversions.

(** ** Prefix and suffix tests against the searches *)

Section PrefixAndFind.

Context {CharT : Type} {T : Traits CharT}.

Implicit Types (v s : basic_string_view CharT).

(** X21: with a non-empty argument on valid non-null views,
    [starts_with(s)] returns true exactly when [find(s)] returns index 0,
    and [ends_with(s)] returns true exactly when [rfind(s)] returns
    [size() - s.size()]. *)
Theorem starts_ends_with_find : forall NDEBUG v s,
  valid_view v = true -> valid_view s = true ->
  is_null (data v) = false -> 0 < size s ->
  (starts_with NDEBUG v s = Ok true <-> find NDEBUG v s = Ok (Some 0)) /\
  (ends_with NDEBUG v s = Ok true <->
   rfind NDEBUG v s = Ok (Some (size v - size s))).
Proof.
  intros NDEBUG v s Hv Hs Hnn Hm.
  pose proof (valid_view_bounds v Hv) as Hbv.
  pose proof (valid_view_bounds s Hs) as Hbs.
  pose proof (contents_length v Hv) as Hlv.
  pose proof (contents_length s Hs) as Hls. unfold distance in Hlv, Hls.
  pose proof (contents_nonempty s Hs Hm) as Hne.
  assert (Hns : is_null (data s) = false)
    by (apply valid_view_nonnull; assumption).
  assert (Hstarts : starts_with NDEBUG v s
                    = Ok (occurs_at (contents v) (contents s) 0)).
  { unfold starts_with. rewrite !assertNonNull_ok by assumption. cbn [bind].
    unfold occurs_at. cbn [skipn].
    destruct (Z.geb_spec (size v) (size s)) as [Hge|Hlt].
    - destruct (Traits_compare_reads (contents s) (contents v) (data v) (data s))
        as [c [Hc Hiff]]; try (apply reads_contents; assumption); [lia|].
      rewrite Hls in Hc. rewrite Hc. cbn [bind]. f_equal.
      apply eqb_zero_of_iff. exact Hiff.
    - rewrite starts_with_list_short by lia. reflexivity. }
  assert (Hends : ends_with NDEBUG v s
                  = Ok ((size s <=? size v) &&
                        occurs_at (contents v) (contents s)
                          (Z.to_nat (size v - size s)))).
  { unfold ends_with. rewrite !assertNonNull_ok by assumption. cbn [bind].
    unfold occurs_at.
    destruct (Z.geb_spec (size v) (size s)) as [Hge|Hlt];
      destruct (Z.leb_spec (size s) (size v)); try lia; [|reflexivity].
    destruct (Traits_compare_reads (contents s)
                (skipn (Z.to_nat (size v - size s)) (contents v))
                (ptr_add (ptr_add (data v) (size v)) (- size s)) (data s))
      as [c [Hc Hiff]].
    - rewrite ptr_add_add.
      replace (size v + - size s) with (Z.of_nat (Z.to_nat (size v - size s))) by lia.
      apply reads_skipn, reads_contents, Hv.
    - apply reads_contents, Hs.
    - rewrite length_skipn. lia.
    - rewrite Hls in Hc. rewrite Hc. cbn [bind andb]. f_equal.
      apply eqb_zero_of_iff. exact Hiff. }
  destruct (find_reads NDEBUG v s Hv Hs Hnn) as [k1 [[Hle1 [Hbefore Hat1]] Hfind]].
  destruct (rfind_reads NDEBUG v s Hv Hs Hnn Hm) as [k2 [[Hle2 [Hafter Hat2]] Hrfind]].
  rewrite Hlv in Hle1, Hle2, Hat1, Hat2.
  rewrite Hstarts, Hends, Hfind, Hrfind. split; split.
  - intros H. inversion H as [Hocc].
    pose proof (occurs_at_bound _ _ _ Hne Hocc) as Hbound.
    destruct k1 as [|k1]; [|rewrite (Hbefore O) in Hocc by lia; discriminate].
    destruct (Z.eqb_spec (Z.of_nat 0) (size v)); [lia|reflexivity].
  - intros H. destruct (Z.eqb_spec (Z.of_nat k1) (size v)); [discriminate|].
    inversion H as [Hk]. assert (k1 = O) by lia. subst k1.
    destruct Hat1 as [Hat1|[E _]]; [now rewrite Hat1|lia].
  - intros H. inversion H as [Hocc]. apply andb_prop in Hocc.
    destruct Hocc as [Hfit Hocc]. apply Z.leb_le in Hfit.
    assert (Hk2 : occurs_at (contents v) (contents s) k2 = true).
    { destruct Hat2 as [Hat2|[_ Hnone]]; [exact Hat2|].
      rewrite Hnone in Hocc. discriminate. }
    pose proof (occurs_at_bound _ _ _ Hne Hk2) as Hbound.
    assert (Hk : k2 = Z.to_nat (size v - size s)).
    { destruct (Nat.lt_ge_cases k2 (Z.to_nat (size v - size s))) as [Hlt|Hge].
      - rewrite Hafter in Hocc by exact Hlt. discriminate.
      - lia. }
    subst k2. rewrite Z2Nat.id by lia.
    destruct (Z.eqb_spec (size v - size s) (size v)); [lia|reflexivity].
  - intros H. destruct (Z.eqb_spec (Z.of_nat k2) (size v)) as [E|E]; [discriminate|].
    inversion H as [Hk].
    assert (Hk2 : occurs_at (contents v) (contents s) k2 = true).
    { destruct Hat2 as [Hat2|[E' _]]; [exact Hat2|lia]. }
    rewrite Nat2Z.id, Hk2.
    destruct (Z.leb_spec (size s) (size v)); [reflexivity|lia].
Qed.

End PrefixAndFind.

(** ** The further properties at concrete inputs *)

Lemma at_returns_character_witness :
  valid_view hello = true /\ is_null (data hello) = false /\ 0 <= 1 /\
  (1 < size hello ->
   exists c,
     nth_error (contents hello) (Z.to_nat 1) = Some c /\
     at_ false hello 1 = Ok c /\ index false hello 1 = Ok c) /\
  (size hello <= 1 -> throws_out_of_range (at_ false hello 1)).
Proof.
  split; [reflexivity|]. split; [reflexivity|]. split; [lia|].
  exact (at_returns_character false hello 1 eq_refl eq_refl ltac:(lia)).
Defined.

Lemma front_back_characters_witness :
  valid_view hello = true /\
  (0 < size hello ->
   exists a b,
     front false hello = Ok a /\ back false hello = Ok b /\
     hd_error (contents hello) = Some a /\
     nth_error (contents hello) (Z.to_nat (size hello - 1)) = Some b) /\
  (size hello = 0 ->
   is_assert_fail (front false hello) = true /\
   is_assert_fail (back false hello) = true).
Proof.
  split; [reflexivity|].
  exact (front_back_characters false hello eq_refl).
Defined.

Lemma substr_contents_witness :
  valid_view hello = true /\ 0 <= 1 < size hello /\
  (0 <= 3 /\ 3 + 1 <= size_type.max) /\
  exists w,
    substr hello 1 (Some 3) = Ok w /\ valid_view w = true /\
    data w = ptr_add (data hello) 1 /\
    contents w = firstn (Z.to_nat 3) (skipn (Z.to_nat 1) (contents hello)).
Proof.
  split; [reflexivity|]. split; [split; [lia|reflexivity]|].
  split; [split; [lia|discriminate]|].
  assert (Hpos : 0 <= 1 < size hello) by (split; [lia|reflexivity]).
  assert (Hn : 0 <= 3 /\ 3 + 1 <= size_type.max) by (split; [lia|discriminate]).
  exact (substr_contents hello 1 (Some 3) eq_refl Hpos Hn).
Defined.

Lemma substr_substr_witness :
  valid_view hello = true /\ 0 <= 1 /\ 0 <= 2 /\ 1 + 2 < size hello /\
  exists w,
    substr hello 1 None = Ok w /\ substr w 2 None = substr hello (1 + 2) None.
Proof.
  split; [reflexivity|]. split; [lia|]. split; [lia|]. split; [reflexivity|].
  exact (substr_substr hello 1 2 eq_refl ltac:(lia) ltac:(lia) eq_refl).
Defined.

Lemma remove_prefix_suffix_contents_witness :
  valid_view hello = true /\
  (0 <= 2 <= size hello ->
   (exists w,
      remove_prefix false hello 2 = Ok w /\ valid_view w = true /\
      contents w = skipn (Z.to_nat 2) (contents hello)) /\
   (exists w,
      remove_suffix false hello 2 = Ok w /\ valid_view w = true /\
      contents w = firstn (Z.to_nat (size hello - 2)) (contents hello))) /\
  (size hello < 2 ->
   is_assert_fail (remove_prefix false hello 2) = true /\
   is_assert_fail (remove_suffix false hello 2) = true).
Proof.
  split; [reflexivity|].
  exact (remove_prefix_suffix_contents false hello 2 eq_refl).
Defined.

Lemma remove_prefix_is_substr_witness :
  valid_view hello = true /\ 0 <= 2 < size hello /\
  remove_prefix false hello 2 = substr hello 2 None.
Proof.
  split; [reflexivity|]. split; [split; [lia|reflexivity]|].
  assert (Hn : 0 <= 2 < size hello) by (split; [lia|reflexivity]).
  exact (remove_prefix_is_substr false hello 2 eq_refl Hn).
Defined.

Lemma view_of_range_begin_end_witness :
  valid_view hello = true /\ view_of_range (begin hello) (end_ hello) = hello.
Proof.
  split; [reflexivity|].
  exact (view_of_range_begin_end hello eq_refl).
Defined.

Lemma find_rfind_character_witness :
  valid_view banana = true /\ is_null (data banana) = false /\
  find_ch false banana "a"%char = Ok (Some 1) /\
  rfind_ch false banana "a"%char = Ok (Some 5) /\
  (exists r, find_ch false banana "a"%char = Ok r /\
             first_match (fun c => Traits_eq c "a"%char) (contents banana) r) /\
  (exists r, rfind_ch false banana "a"%char = Ok r /\
             last_match (fun c => Traits_eq c "a"%char) (contents banana) r).
Proof.
  split; [reflexivity|]. split; [reflexivity|].
  split; [reflexivity|]. split; [reflexivity|].
  exact (find_rfind_character false banana "a"%char eq_refl eq_refl).
Defined.

Lemma find_first_last_of_set_witness :
  valid_view banana = true /\ valid_view (sv "nb" 2) = true /\
  is_null (data banana) = false /\
  find_first_of false banana (sv "nb" 2) = Ok (Some 0) /\
  find_last_of false banana (sv "nb" 2) = Ok (Some 4) /\
  (exists r, find_first_of false banana (sv "nb" 2) = Ok r /\
             first_match (matches_set (contents (sv "nb" 2))) (contents banana) r) /\
  (exists r, find_last_of false banana (sv "nb" 2) = Ok r /\
             last_match (matches_set (contents (sv "nb" 2))) (contents banana) r).
Proof.
  split; [reflexivity|]. split; [reflexivity|]. split; [reflexivity|].
  split; [reflexivity|]. split; [reflexivity|].
  exact (find_first_last_of_set false banana (sv "nb" 2) eq_refl eq_refl eq_refl).
Defined.

Lemma find_not_of_character_witness :
  valid_view banana = true /\ is_null (data banana) = false /\
  find_first_not_of_ch false banana "b"%char = Ok (Some 1) /\
  find_last_not_of_ch false banana "a"%char = Ok (Some 4) /\
  (exists r, find_first_not_of_ch false banana "b"%char = Ok r /\
             first_match (fun c => negb (Traits_eq c "b"%char)) (contents banana) r) /\
  (exists r, find_last_not_of_ch false banana "b"%char = Ok r /\
             last_match (fun c => negb (Traits_eq "b"%char c)) (contents banana) r).
Proof.
  split; [reflexivity|]. split; [reflexivity|].
  split; [reflexivity|]. split; [reflexivity|].
  exact (find_not_of_character false banana "b"%char eq_refl eq_refl).
Defined.

Lemma rfind_empty_needle_witness :
  valid_view banana = true /\ is_null (data banana) = false /\
  size (sv "" 0) = 0 /\
  rfind false banana (sv "" 0) = Ok None.
Proof.
  split; [reflexivity|]. split; [reflexivity|]. split; [reflexivity|].
  exact (rfind_empty_needle false banana (sv "" 0) eq_refl eq_refl eq_refl).
Defined.

Lemma find_rfind_agree_witness :
  valid_view banana = true /\ valid_view (sv "an" 2) = true /\
  is_null (data banana) = false /\ 0 < size (sv "an" 2) /\
  find false banana (sv "an" 2) = Ok (Some 1) /\
  rfind false banana (sv "an" 2) = Ok (Some 3) /\
  exists rf rl,
    find false banana (sv "an" 2) = Ok rf /\
    rfind false banana (sv "an" 2) = Ok rl /\
    (rf = None <-> rl = None) /\
    (rf = None <-> forall j, 0 <= j -> ~ equals_at banana (sv "an" 2) j) /\
    (forall i k, rf = Some i -> rl = Some k -> i <= k).
Proof.
  split; [reflexivity|]. split; [reflexivity|]. split; [reflexivity|].
  split; [reflexivity|]. split; [reflexivity|]. split; [reflexivity|].
  exact (find_rfind_agree false banana (sv "an" 2) eq_refl eq_refl eq_refl eq_refl).
Defined.

Lemma starts_ends_with_view_witness :
  valid_view banana = true /\ valid_view (sv "ban" 3) = true /\
  is_null (data banana) = false /\ is_null (data (sv "ban" 3)) = false /\
  starts_with false banana (sv "ban" 3)
    = Ok (starts_with_list (contents banana) (contents (sv "ban" 3))) /\
  ends_with false banana (sv "ban" 3)
    = Ok (ends_with_list (contents banana) (contents (sv "ban" 3))).
Proof.
  split; [reflexivity|]. split; [reflexivity|].
  split; [reflexivity|]. split; [reflexivity|].
  exact (starts_ends_with_view false banana (sv "ban" 3)
           eq_refl eq_refl eq_refl eq_refl).
Defined.

Lemma starts_ends_with_character_witness :
  valid_view banana = true /\
  starts_with_ch false banana "b"%char
    = Ok (match hd_error (contents banana) with
          | Some c => Traits_eq "b"%char c
          | None => false
          end) /\
  ends_with_ch false banana "b"%char
    = Ok (match hd_error (rev (contents banana)) with
          | Some c => Traits_eq "b"%char c
          | None => false
          end).
Proof.
  split; [reflexivity|].
  exact (starts_ends_with_character false banana "b"%char eq_refl).
Defined.


Lemma equality_operators_witness :
  valid_view banana = true /\ valid_view (sv "bandana" 6) = true /\
  exists e,
    op_eq banana (sv "bandana" 6) = Ok e /\
    op_ne banana (sv "bandana" 6) = Ok (negb e) /\
    (e = true <->
     size banana = size (sv "bandana" 6) /\
     starts_with_list (contents banana) (contents (sv "bandana" 6)) = true).
Proof.
  split; [reflexivity|]. split; [reflexivity|].
  exact (equality_operators banana (sv "bandana" 6) eq_refl eq_refl).
Defined.

Lemma to_string_contents_witness :
  valid_view banana = true /\
  to_basic_string banana = Ok (contents banana) /\
  to_string banana = Ok (contents banana).
Proof.
  split; [reflexivity|].
  exact (to_string_contents banana eq_refl).
Defined.

Lemma view_of_string_round_trip_witness :
  Z.of_nat (List.length (list_ascii_of_string "banana")) <= ptrdiff_max /\
  contents (view_of_string zero (list_ascii_of_string "banana"))
    = list_ascii_of_string "banana" /\
  to_basic_string (view_of_string zero (list_ascii_of_string "banana"))
    = Ok (list_ascii_of_string "banana") /\
  to_string (view_of_string zero (list_ascii_of_string "banana"))
    = Ok (list_ascii_of_string "banana").
Proof.
  split; [discriminate|].
  exact (view_of_string_round_trip zero (list_ascii_of_string "banana")
           ltac:(discriminate)).
Defined.

Lemma no_zero_in_ban : forall c, In c ["b"; "a"; "n"]%char -> Traits_eq c zero = false.
Proof.
  intros c [H|[H|[H|[]]]]; subst c; reflexivity.
Defined.

Lemma view_of_cstr_contents_witness :
  (forall c, In c ["b"; "a"; "n"]%char -> Traits_eq c zero = false) /\
  Z.of_nat (List.length ["b"; "a"; "n"]%char) <= ptrdiff_max /\
  (exists w,
     view_of_cstr zero
       (Some {| object := ["x"]%char ++ ["b"; "a"; "n"]%char ++ zero :: ["y"]%char;
                position := Z.of_nat (List.length ["x"]%char) |}) = Ok w /\
     valid_view w = true /\ contents w = ["b"; "a"; "n"]%char) /\
  view_of_cstr zero
    (Some {| object := ["x"]%char ++ ["b"; "a"; "n"]%char;
             position := Z.of_nat (List.length ["x"]%char) |})
    = Undefined /\
  view_of_cstr zero None = Ok empty_view.
Proof.
  split; [exact no_zero_in_ban|]. split; [discriminate|].
  exact (view_of_cstr_contents zero ["x"]%char ["b"; "a"; "n"]%char ["y"]%char
           no_zero_in_ban ltac:(discriminate)).
Defined.

Lemma op_shl_nonnegative_width_witness :
  valid_view (sv "ab" 2) = true /\
  sentry (fresh_stream 5 "*" ios_left) = true /\
  0 <= os_width (fresh_stream 5 "*" ios_left) <= ptrdiff_max /\
  exists os',
    op_shl (fresh_stream 5 "*" ios_left) (sv "ab" 2) = Ok os' /\
    os_width os' = 0 /\
    os_rdbuf os' =
      os_rdbuf (fresh_stream 5 "*" ios_left) ++
      (if size (sv "ab" 2) <? os_width (fresh_stream 5 "*" ios_left) then
         let fill := repeat (os_fill (fresh_stream 5 "*" ios_left))
                       (Z.to_nat (os_width (fresh_stream 5 "*" ios_left)
                                  - size (sv "ab" 2))) in
         if Z.land (os_flags (fresh_stream 5 "*" ios_left)) ios_adjustfield
            =? ios_left
         then contents (sv "ab" 2) ++ fill else fill ++ contents (sv "ab" 2)
       else contents (sv "ab" 2)).
Proof.
  split; [reflexivity|]. split; [reflexivity|].
  split; [split; discriminate|].
  assert (Hw : 0 <= os_width (fresh_stream 5 "*" ios_left) <= ptrdiff_max)
    by (split; discriminate).
  exact (op_shl_nonnegative_width (fresh_stream 5 "*" ios_left) (sv "ab" 2)
           eq_refl eq_refl Hw).
Defined.

Lemma starts_ends_with_find_witness :
  valid_view banana = true /\ valid_view (sv "ana" 3) = true /\
  is_null (data banana) = false /\ 0 < size (sv "ana" 3) /\
  ends_with false banana (sv "ana" 3) = Ok true /\
  (starts_with false banana (sv "ana" 3) = Ok true <->
   find false banana (sv "ana" 3) = Ok (Some 0)) /\
  (ends_with false banana (sv "ana" 3) = Ok true <->
   rfind false banana (sv "ana" 3) = Ok (Some (size banana - size (sv "ana" 3)))).
Proof.
  split; [reflexivity|]. split; [reflexivity|]. split; [reflexivity|].
  split; [reflexivity|]. split; [reflexivity|].
  exact (starts_ends_with_find false banana (sv "ana" 3)
           eq_refl eq_refl eq_refl eq_refl).
Defined.
